(** * lively.lang promise helpers (src/promise.js): a shallow embedding

    The module is a set of combinators over the Promise and timer
    primitives of the host.  The embedding has three parts.

    - The host: JavaScript values, the heap the caller sees, the promise
      cells made by [new Promise], and a state-and-exception monad in which
      the bodies of the source functions are written.  Caller-supplied
      functions are entries of a function table; each call of one is
      logged.
    - The combinators whose reactions run one after the other ([chain],
      [promise_finally], [convertCallbackFun],
      [convertCallbackFunWithManyArgs], [promise]).  A future handed in by
      caller code is given by how it settles; [then] and [catch] run their
      reaction on that settlement, so a call is followed up to the state in
      which everything it registered has run.
    - The combinators that race timers ([timeout], [waitFor]).  A call
      returns the closure variables of the source together with what it
      registered with the host; each registered callback is a handler on
      that state, and the host delivers events in an order of its own. *)

From Stdlib Require Import ZArith Lia.
From stdpp Require Import gmap strings list pretty.

Local Open Scope Z_scope.
Local Open Scope string_scope.
Local Open Scope list_scope.

(** ** Values *)

(** Heap locations, promise cells and caller functions are named by
    numbers. *)
Abbreviation loc := positive.
Abbreviation pid := nat.
Abbreviation fid := nat.

(** A JavaScript value.  [VObj] is a reference into the heap, [VFun] a
    caller-supplied function (index into the function table), [VCallback]
    the completion callback an adapter appends to the arguments (it settles
    promise cell [p]; [many] tells the two adapters apart), and [VFuture s]
    a future or thenable handed in by the caller that settles as [s]. *)
#[warnings="-register-all"]
Inductive val :=
| VUndef
| VNull
| VBool (b : bool)
| VNum (n : Z)
| VStr (s : string)
| VErr (name msg : string)
| VArr (l : list val)
| VObj (l : loc)
| VFun (f : fid)
| VCallback (many : bool) (p : pid)
| VFuture (s : settlement)
with settlement :=
| Fulfills (v : val)
| Rejects (e : val)
| NeverSettles.

(** [new Error(msg)] and the host's TypeError. *)
Definition Error (msg : string) : val := VErr "Error" msg.
Definition TypeError (msg : string) : val := VErr "TypeError" msg.

(** ToBoolean. *)
Definition truthy (v : val) : bool :=
  match v with
  | VUndef | VNull => false
  | VBool b => b
  | VNum n => negb (Z.eqb n 0)
  | VStr s => negb (String.eqb s "")
  | _ => true
  end.

(** [typeof v === "function"] and [typeof v === "number"]. *)
Definition is_function (v : val) : bool :=
  match v with VFun _ | VCallback _ _ => true | _ => false end.

Definition is_number (v : val) : bool :=
  match v with VNum _ => true | _ => false end.

Definition is_future (v : val) : bool :=
  match v with VFuture _ => true | _ => false end.

(** [undefined] and [null], the values without properties. *)
Definition nullish (v : val) : bool :=
  match v with VUndef | VNull => true | _ => false end.

(** The promise resolution procedure: what a promise resolved with [v]
    settles as.  A thenable is followed, also through a thenable it
    fulfils with; every other value fulfils. *)
Fixpoint resolution (v : val) : settlement :=
  match v with
  | VFuture (Fulfills y) => resolution y
  | VFuture (Rejects e) => Rejects e
  | VFuture NeverSettles => NeverSettles
  | _ => Fulfills v
  end.

(** ** Heap, promise cells, trace *)

Inductive obj :=
| OArr (elems : list val)
| ORec (props : gmap string val).

Inductive event :=
| ECall (f : fid) (this : val) (args : list val).

Definition called (ev : event) : fid :=
  match ev with ECall f _ _ => f end.

(** The state the combinators run in: the caller-visible heap, the promise
    cells made by [new Promise] ([None]: not yet resolved), the calls of
    caller-supplied functions so far, what was written with
    [console.error], and the callback calls caller code has deferred
    (callee and arguments, oldest first). *)
Record world := World {
  heap : gmap loc obj;
  cells : list (option settlement);
  trace : list event;
  console : list val;
  later : list (val * list val)
}.

Definition set_heap (h : gmap loc obj) (w : world) : world :=
  World h (cells w) (trace w) (console w) (later w).
Definition set_cells (c : list (option settlement)) (w : world) : world :=
  World (heap w) c (trace w) (console w) (later w).
Definition log_event (e : event) (w : world) : world :=
  World (heap w) (cells w) (trace w ++ [e]) (console w) (later w).
Definition log_console (v : val) (w : world) : world :=
  World (heap w) (cells w) (trace w) (console w ++ [v]) (later w).
Definition set_later (q : list (val * list val)) (w : world) : world :=
  World (heap w) (cells w) (trace w) (console w) q.

(** ** The monad: state [world], exceptions [val] *)

Inductive result (A : Type) :=
| Ok (a : A)
| Exn (e : val).
Arguments Ok {A} a.
Arguments Exn {A} e.

Definition M (A : Type) : Type := world -> result A * world.

Definition ret {A} (a : A) : M A := fun w => (Ok a, w).
Definition throw {A} (e : val) : M A := fun w => (Exn e, w).
Definition bind {A B} (m : M A) (k : A -> M B) : M B :=
  fun w => match m w with
           | (Ok a, w') => k a w'
           | (Exn e, w') => (Exn e, w')
           end.
Definition try_catch {A} (m : M A) (handler : val -> M A) : M A :=
  fun w => match m w with
           | (Ok a, w') => (Ok a, w')
           | (Exn e, w') => handler e w'
           end.
Definition modify (f : world -> world) : M val := fun w => (Ok VUndef, f w).

Notation "'let*' x := m 'in' k" := (bind m (fun x => k))
  (at level 10, x name, m at level 100, k at level 200).

(** ** Promise cells *)

Definition cell (w : world) (p : pid) : option settlement :=
  match cells w !! p with
  | Some c => c
  | None => None
  end.

(** The resolving functions of a promise: the first call wins. *)
Definition settle (p : pid) (s : settlement) (w : world) : world :=
  match cells w !! p with
  | Some None => set_cells (<[p := Some s]> (cells w)) w
  | _ => w
  end.

Definition resolve (p : pid) (v : val) : M val := modify (settle p (resolution v)).
Definition reject (p : pid) (e : val) : M val := modify (settle p (Rejects e)).

(** [new Promise(executor)]: a fresh pending cell; an executor that throws
    rejects it. *)
Definition new_Promise (executor : pid -> M val) : M pid :=
  fun w =>
    let p := length (cells w) in
    match executor p (set_cells (cells w ++ [None]) w) with
    | (Ok _, w') => (Ok p, w')
    | (Exn e, w') => (Ok p, settle p (Rejects e) w')
    end.

(** [Promise.resolve(x)]. *)
Definition Promise_resolve (x : val) : settlement := resolution x.

(** [s.then(onFulfilled)] and [s.catch(onRejected)] with the reaction run
    to completion: the settlement of the derived promise. *)
Definition then_ (s : settlement) (onFulfilled : val -> M val) : M settlement :=
  fun w =>
    match s with
    | Fulfills v =>
        match onFulfilled v w with
        | (Ok r, w') => (Ok (resolution r), w')
        | (Exn e, w') => (Ok (Rejects e), w')
        end
    | Rejects e => (Ok (Rejects e), w)
    | NeverSettles => (Ok NeverSettles, w)
    end.

Definition catch_ (s : settlement) (onRejected : val -> M val) : M settlement :=
  fun w =>
    match s with
    | Fulfills v => (Ok (Fulfills v), w)
    | Rejects e =>
        match onRejected e w with
        | (Ok r, w') => (Ok (resolution r), w')
        | (Exn e', w') => (Ok (Rejects e'), w')
        end
    | NeverSettles => (Ok NeverSettles, w)
    end.

(** [{}]: a fresh empty object. *)
Definition new_object : M val :=
  fun w =>
    let l := fresh (dom (heap w)) in
    (Ok (VObj l), set_heap (<[l := ORec ∅]> (heap w)) w).

(** [a.slice()] on an array value or an array in the heap. *)
Definition slice (a : val) : M (list val) :=
  fun w =>
    match a with
    | VArr xs => (Ok xs, w)
    | VObj l =>
        match heap w !! l with
        | Some (OArr xs) => (Ok xs, w)
        | _ => (Exn (TypeError "slice is not a function"), w)
        end
    | _ => (Exn (TypeError "slice is not a function"), w)
    end.

(** ** Caller-supplied functions *)

(** One run of a caller-supplied function: how the call completes, and the
    argument lists of the calls it makes to its last argument (the
    completion callback, under the adapters), during the call ([cb_sync])
    and after it returned ([cb_async]). *)
Record behaviour := Behaviour {
  cb_sync : list (list val);
  outcome : result val;
  cb_async : list (list val)
}.

(** A caller-supplied function: from [this], the arguments and the heap to
    its behaviour and the heap it leaves. *)
Definition jsfun : Type :=
  val -> list val -> gmap loc obj -> behaviour * gmap loc obj.

(** The completion callbacks of the two adapters, closed over the
    resolving functions of cell [p].
    [convertCallbackFun]:
      [function(err, result) { return err ? reject(err) : resolve(result); }]
    [convertCallbackFunWithManyArgs]:
      [function() { var args = Array.from(arguments), err = args.shift();
                    return err ? reject(err) : resolve(args); }] *)
Definition completion (many : bool) (p : pid) (arguments : list val) : M val :=
  if many then
    let args := arguments in
    let err := hd VUndef args in
    let args := tl args in
    if truthy err then reject p err else resolve p (VArr args)
  else
    let err := nth 0 arguments VUndef in
    let result := nth 1 arguments VUndef in
    if truthy err then reject p err else resolve p result.

(** A call caller code makes to a value it was handed: the library's
    completion callbacks run; anything else is the caller's own business. *)
Definition apply_callback (cb : val) (args : list val) (w : world) : world :=
  match cb with
  | VCallback many p => snd (completion many p args w)
  | _ => w
  end.

(** Callback calls (callee and arguments) made one after the other. *)
Definition run_callbacks (calls : list (val * list val)) (w : world) : world :=
  fold_left (fun w c => apply_callback (fst c) (snd c) w) calls w.

(** The host running the deferred callback calls, oldest first. *)
Definition drain (w : world) : world :=
  run_callbacks (later w) (set_later [] w).

(** How a completion callback called with [arguments] settles a promise
    that is still pending: the first argument, if truthy, is the error;
    otherwise the second argument (single-result adapter) or the array of
    all arguments after the first (many-results adapter) is the result. *)
Definition completion_settles (many : bool) (arguments : list val) : settlement :=
  if truthy (hd VUndef arguments) then Rejects (hd VUndef arguments)
  else if many then Fulfills (VArr (tl arguments))
       else resolution (nth 1 arguments VUndef).

(** The first call a run makes to the completion callback while the
    promise can still be pending: a call made during the run, else, if the
    run returned, the first deferred one. *)
Definition first_completion (b : behaviour) : option (list val) :=
  match cb_sync b with
  | a :: _ => Some a
  | [] => match outcome b with
          | Ok _ => head (cb_async b)
          | Exn _ => None
          end
  end.

(** Deferred callback calls only name promise cells that exist. *)
Definition targets_below (n : nat) (c : val * list val) : Prop :=
  match fst c with
  | VCallback _ q => (q < n)%nat
  | _ => True
  end.

Definition later_wf (w : world) : Prop :=
  Forall (targets_below (length (cells w))) (later w).

Section Combinators.

(** The functions of the caller. *)
Variable ftab : fid -> jsfun.

(** [f.apply(this, args)]: the call is logged, the function runs on the
    heap, its calls of its last argument happen (now, or are queued), and
    it returns or throws.  Calling a value that is not a function throws a
    TypeError. *)
Definition call (f this : val) (args : list val) : M val :=
  fun w =>
    match f with
    | VFun k =>
        let '(b, h) := ftab k this args (heap w) in
        let cb := List.last args VUndef in
        let w1 := set_heap h (log_event (ECall k this args) w) in
        let w2 := run_callbacks (map (fun a => (cb, a)) (cb_sync b)) w1 in
        let w3 := set_later (later w2 ++ map (fun a => (cb, a)) (cb_async b)) w2 in
        (outcome b, w3)
    | VCallback many p => completion many p args w
    | _ => (Exn (TypeError "not a function"), w)
    end.

(** *** chain *)

(** [_chainResolveNext(promiseFuncs, prevResult, akku, resolve, reject)];
    [resolve] and [reject] are those of cell [p], [promiseFuncs] is the
    private array, which [shift] consumes from the front. *)
Fixpoint _chainResolveNext (promiseFuncs : list val) (prevResult akku : val)
    (p : pid) {struct promiseFuncs} : M val :=
  match promiseFuncs with
  | [] => resolve p prevResult
  | next :: promiseFuncs =>
      if negb (truthy next) then resolve p prevResult
      else
        try_catch
          (let* x := call next VUndef [prevResult; akku] in
           let* r := then_ (Promise_resolve x)
                       (fun result => _chainResolveNext promiseFuncs result akku p) in
           let* _ := catch_ r (fun err => reject p err) in
           ret VUndef)
          (fun err => reject p err)
  end.

Definition chain (promiseFuncs : val) : M pid :=
  new_Promise (fun p =>
    let* funcs := slice promiseFuncs in
    let* akku := new_object in
    _chainResolveNext funcs VUndef akku p).

(** The reading of the spec (section 4.5) the source is compared with:
    the steps taken in order, each with the previous result and the shared
    state; the calls made, how the chain future settles ([None]: never),
    and the heap the steps leave. *)
Fixpoint chain_spec (steps : list fid) (previousResult sharedState : val)
    (h : gmap loc obj) : list event * option settlement * gmap loc obj :=
  match steps with
  | [] => ([], Some (Fulfills previousResult), h)
  | step :: steps =>
      let '(b, h1) := ftab step VUndef [previousResult; sharedState] h in
      let ev := ECall step VUndef [previousResult; sharedState] in
      match outcome b with
      | Exn err => ([ev], Some (Rejects err), h1)
      | Ok x =>
          match resolution x with
          | Fulfills result =>
              let '(tr, s, h2) := chain_spec steps result sharedState h1 in
              (ev :: tr, s, h2)
          | Rejects err => ([ev], Some (Rejects err), h1)
          | NeverSettles => ([ev], None, h1)
          end
      end
  end.

(** *** promise_finally *)

(** [err.stack]: reading a property of [undefined] or [null] throws; an
    Error carries a stack string; an object in the heap may have a [stack]
    property; every other value has none. *)
Definition get_stack (err : val) : M val :=
  fun w =>
    match err with
    | VUndef | VNull =>
        (Exn (TypeError "Cannot read properties of undefined (reading 'stack')"), w)
    | VErr name msg => (Ok (VStr (name ++ ": " ++ msg)), w)
    | VObj l =>
        match heap w !! l with
        | Some (ORec m) => (Ok (default VUndef (m !! "stack")), w)
        | _ => (Ok VUndef, w)
        end
    | _ => (Ok VUndef, w)
    end.

(** ToString, as far as string concatenation needs it here. *)
Definition to_string (v : val) : string :=
  match v with
  | VUndef => "undefined"
  | VNull => "null"
  | VBool true => "true"
  | VBool false => "false"
  | VNum n => pretty n
  | VStr s => s
  | VErr name msg => name ++ ": " ++ msg
  | VArr _ => "[object Array]"
  | VObj _ => "[object Object]"
  | VFun _ | VCallback _ _ => "function"
  | VFuture _ => "[object Promise]"
  end.

(** [a || b]. *)
Definition js_or (a b : val) : val := if truthy a then a else b.

Definition console_error (v : val) : M val := modify (log_console v).

(** [try { finallyFn(); } catch(err) {
       console.error("Error in promise finally: " + err.stack || err); }] *)
Definition run_finallyFn (finallyFn : val) : M val :=
  try_catch
    (call finallyFn VUndef [])
    (fun err =>
       let* stack := get_stack err in
       console_error (js_or (VStr ("Error in promise finally: " ++ to_string stack)) err)).

Definition promise_finally (promise finallyFn : val) : M settlement :=
  let* r := then_ (Promise_resolve promise)
              (fun result => let* _ := run_finallyFn finallyFn in ret result) in
  catch_ r (fun err => let* _ := run_finallyFn finallyFn in throw err).

(** *** convertCallbackFun, convertCallbackFunWithManyArgs, promise *)

(** The function an adapter returns: [promiseGenerator], closed over
    [func]. *)
Inductive adapted :=
| PromiseGenerator (many : bool) (func : val).

(** The body of [promiseGenerator], called on [self] with [arguments]. *)
Definition promiseGenerator (many : bool) (func self : val) (arguments : list val) : M pid :=
  let args := arguments in
  new_Promise (fun p =>
    let args := args ++ [VCallback many p] in
    call func self args).

Definition apply_adapted (g : adapted) (self : val) (arguments : list val) : M pid :=
  match g with
  | PromiseGenerator many func => promiseGenerator many func self arguments
  end.

Definition convertCallbackFun (func : val) : M adapted :=
  ret (PromiseGenerator false func).

Definition convertCallbackFunWithManyArgs (func : val) : M adapted :=
  ret (PromiseGenerator true func).

(** What [promise(obj)] returns: a function or a promise. *)
Inductive converted :=
| AFunction (g : adapted)
| APromise (s : settlement).

Definition promise (obj : val) : M converted :=
  if is_function obj then
    let* g := convertCallbackFun obj in ret (AFunction g)
  else
    ret (APromise (Promise_resolve obj)).

(** *** timeout *)

(** One [timeout] call: the returned promise, the closure variable [done],
    and what the executor left with the host: the timer with its delay,
    until it fires, and whether [promise.then] took the two reactions. *)
Record timeout_call := TimeoutCall {
  t_promise : pid;
  done : bool;
  t_timer : option val;
  t_reactions : bool
}.

Definition timeout (ms promise : val) : M timeout_call :=
  let* p := new_Promise (fun p =>
              if is_future promise then ret VUndef
              else throw (TypeError "promise.then is not a function")) in
  ret (TimeoutCall p false (Some ms) (is_future promise)).

Definition set_done (c : timeout_call) : timeout_call :=
  TimeoutCall (t_promise c) true (t_timer c) (t_reactions c).

(** [() => !done && (done = true) && reject(new Error('Promise timed out'))] *)
Definition timeout_timer (c : timeout_call) : M timeout_call :=
  if negb (done c) then
    let c := set_done c in
    let* _ := reject (t_promise c) (Error "Promise timed out") in ret c
  else ret c.

(** [val => !done && (done = true) && resolve(val)] *)
Definition timeout_val (v : val) (c : timeout_call) : M timeout_call :=
  if negb (done c) then
    let c := set_done c in
    let* _ := resolve (t_promise c) v in ret c
  else ret c.

(** [err => !done && (done = true) && reject(err)] *)
Definition timeout_err (err : val) (c : timeout_call) : M timeout_call :=
  if negb (done c) then
    let c := set_done c in
    let* _ := reject (t_promise c) err in ret c
  else ret c.

(** What the host can deliver to a [timeout] call. *)
Inductive timeout_event :=
| TimerFires
| InputFulfils (v : val)
| InputRejects (e : val).

(** The host delivering one event: the timer fires once, if set; the
    input calls a reaction, if [then] took them. *)
Definition timeout_deliver (ev : timeout_event) (c : timeout_call) (w : world)
    : timeout_call * world :=
  match ev with
  | TimerFires =>
      match t_timer c with
      | Some _ =>
          let c := TimeoutCall (t_promise c) (done c) None (t_reactions c) in
          match timeout_timer c w with
          | (Ok c', w') => (c', w')
          | (Exn _, w') => (c, w')
          end
      | None => (c, w)
      end
  | InputFulfils v =>
      if t_reactions c then
        match timeout_val v c w with
        | (Ok c', w') => (c', w')
        | (Exn _, w') => (c, w')
        end
      else (c, w)
  | InputRejects e =>
      if t_reactions c then
        match timeout_err e c w with
        | (Ok c', w') => (c', w')
        | (Exn _, w') => (c, w')
        end
      else (c, w)
  end.

Fixpoint timeout_run (evs : list timeout_event) (c : timeout_call) (w : world)
    : timeout_call * world :=
  match evs with
  | [] => (c, w)
  | ev :: evs => let '(c', w') := timeout_deliver ev c w in timeout_run evs c' w'
  end.

(** *** waitFor *)

(** The world after [tester()] ran, for a caller function [k]: its heap,
    the call logged, the calls it deferred queued (a tester is handed no
    callback). *)
Definition after_tester (k : fid) (w : world) : world :=
  let '(b, h) := ftab k VUndef [] (heap w) in
  World h (cells w) (trace w ++ [ECall k VUndef []]) (console w)
    (later w ++ map (fun a => (VUndef, a)) (cb_async b)).

(** One [waitFor] call: the returned promise, the closure variables
    [tester], [stopped], [error] and [value], and what is registered with
    the host: the interval [i] with its period, until it is cleared, and
    the deadline timer with its delay, until it fires. *)
Record waitFor_call := WaitForCall {
  w_promise : pid;
  tester : val;
  stopped : bool;
  error : val;
  value : val;
  w_interval : option Z;
  w_deadline : option val
}.

Definition waitFor (ms tester : val) : M waitFor_call :=
  let* p := new_Promise (fun p => ret VUndef) in
  let '(tester, ms) := if is_function ms then (ms, VUndef) else (tester, ms) in
  ret (WaitForCall p tester false VNull VUndef (Some 10)
         (if is_number ms then Some ms else None)).

Definition set_value (v : val) (c : waitFor_call) : waitFor_call :=
  WaitForCall (w_promise c) (tester c) (stopped c) (error c) v (w_interval c) (w_deadline c).
Definition set_error (e : val) (c : waitFor_call) : waitFor_call :=
  WaitForCall (w_promise c) (tester c) (stopped c) e (value c) (w_interval c) (w_deadline c).
Definition set_stopped (c : waitFor_call) : waitFor_call :=
  WaitForCall (w_promise c) (tester c) true (error c) (value c) (w_interval c) (w_deadline c).
Definition clearInterval (c : waitFor_call) : waitFor_call :=
  WaitForCall (w_promise c) (tester c) (stopped c) (error c) (value c) None (w_deadline c).

(** The interval callback. *)
Definition waitFor_tick (c : waitFor_call) : M waitFor_call :=
  if stopped c then ret (clearInterval c)
  else
    let* c := try_catch
                (let* v := call (tester c) VUndef [] in ret (set_value v c))
                (fun e => ret (set_error e c)) in
    if truthy (value c) || truthy (error c) then
      let c := set_stopped c in
      let c := clearInterval c in
      let* _ := if truthy (error c) then reject (w_promise c) (error c)
                else resolve (w_promise c) (value c) in
      ret c
    else ret c.

(** The deadline callback: [function() { error = new Error('timeout'); }] *)
Definition waitFor_deadline (c : waitFor_call) : M waitFor_call :=
  ret (set_error (Error "timeout") c).

Inductive waitFor_event :=
| Tick
| Deadline.

(** The host delivering one event: a tick while the interval is set, the
    deadline once if it was set. *)
Definition waitFor_deliver (ev : waitFor_event) (c : waitFor_call) (w : world)
    : waitFor_call * world :=
  match ev with
  | Tick =>
      match w_interval c with
      | Some _ =>
          match waitFor_tick c w with
          | (Ok c', w') => (c', w')
          | (Exn _, w') => (c, w')
          end
      | None => (c, w)
      end
  | Deadline =>
      match w_deadline c with
      | Some _ =>
          let c := WaitForCall (w_promise c) (tester c) (stopped c) (error c)
                     (value c) (w_interval c) None in
          match waitFor_deadline c w with
          | (Ok c', w') => (c', w')
          | (Exn _, w') => (c, w')
          end
      | None => (c, w)
      end
  end.

Fixpoint waitFor_run (evs : list waitFor_event) (c : waitFor_call) (w : world)
    : waitFor_call * world :=
  match evs with
  | [] => (c, w)
  | ev :: evs => let '(c', w') := waitFor_deliver ev c w in waitFor_run evs c' w'
  end.

(** A call that is still polling tester [k]: not stopped, the interval
    set, the future pending. *)
Definition polling (k : fid) (c : waitFor_call) (w : world) : Prop :=
  tester c = VFun k /\ stopped c = false /\ w_interval c = Some 10 /\
  cells w !! w_promise c = Some None.

(** The delay the host gives a timer that was set with [ms]: as Node's
    timers do, a delay below 1 or above 2^31-1 is taken as 1 ms. *)
Definition host_delay (ms : Z) : Z :=
  if Z.ltb ms 1 || Z.ltb 2147483647 ms then 1 else ms.

(** The order in which the host delivers the events of a call up to its
    [n]-th tick: tick [j] is due at [j] times the period, the deadline at
    its delay, both as the host takes them; when both are due at the same
    time, [deadline_first] says which the host takes first. *)
Definition ticks_before (period d : Z) (deadline_first : bool) : nat :=
  Z.to_nat (if deadline_first then (host_delay d - 1) / host_delay period
            else host_delay d / host_delay period).

Definition waitFor_schedule (c : waitFor_call) (deadline_first : bool) (n : nat)
    : list waitFor_event :=
  match w_interval c with
  | Some period =>
      match w_deadline c with
      | Some (VNum d) =>
          let k := ticks_before period d deadline_first in
          if (k <? n)%nat then repeat Tick k ++ Deadline :: repeat Tick (n - k)
          else repeat Tick n
      | _ => repeat Tick n
      end
  | None => []
  end.

End Combinators.

(** ** Caller code used in the examples *)

Definition returns (v : val) (h : gmap loc obj) : behaviour * gmap loc obj :=
  (Behaviour [] (Ok v) [], h).
Definition throws (e : val) (h : gmap loc obj) : behaviour * gmap loc obj :=
  (Behaviour [] (Exn e) [], h).

(** [o.key = v] and [o.key] on an object in the heap. *)
Definition set_prop (l : loc) (key : string) (v : val) (h : gmap loc obj) : gmap loc obj :=
  alter (fun o => match o with ORec m => ORec (<[key := v]> m) | _ => o end) l h.
Definition get_prop (l : loc) (key : string) (h : gmap loc obj) : val :=
  match h !! l with
  | Some (ORec m) => default VUndef (m !! key)
  | _ => VUndef
  end.

(** The functions of the examples, by number:
    - 0: [() => Promise.resolve(23)]
    - 1: [(prevVal, state) => { state.first = prevVal; return prevVal + 2 }]
    - 2: [(prevVal, state) => { state.second = prevVal; return state }]
    - 3: [() => { throw new Error("x") }]
    - 4: [() => 99]
    - 5: [(a, cb) => cb(null, a * 2)]
    - 6: [cb => cb(null, 1, 2, 3)]
    - 7: [() => { throw undefined }]
    - 8: [() => { throw null }]
    - 9: [() => { if (counter.n++ === 0) throw null; return 42 }], with
         [counter] the object at location 1
    - 10: [() => { throw new Error("boom") }]
    - 11: [() => {}]
    - 12: [() => counter.n++ < 2 ? false : 42]
    - 13: [() => false]
    - 14: [(a, cb) => cb(new Error("bad"))]
    - any other: [() => { steps.length = 0; return 1 }], with [steps] the
         array at location 1 *)
Definition demo (k : fid) : jsfun :=
  fun this args h =>
    match k with
    | 0%nat => returns (VFuture (Fulfills (VNum 23))) h
    | 1%nat =>
        match args with
        | [VNum n; VObj s] => returns (VNum (n + 2)) (set_prop s "first" (VNum n) h)
        | _ => throws (TypeError "bad arguments") h
        end
    | 2%nat =>
        match args with
        | [prev; VObj s] => returns (VObj s) (set_prop s "second" prev h)
        | _ => throws (TypeError "bad arguments") h
        end
    | 3%nat => throws (Error "x") h
    | 4%nat => returns (VNum 99) h
    | 5%nat =>
        match args with
        | VNum a :: _ => (Behaviour [[VNull; VNum (a * 2)]] (Ok VUndef) [], h)
        | _ => throws (TypeError "bad arguments") h
        end
    | 6%nat => (Behaviour [[VNull; VNum 1; VNum 2; VNum 3]] (Ok VUndef) [], h)
    | 7%nat => throws VUndef h
    | 8%nat => throws VNull h
    | 9%nat =>
        match get_prop 1%positive "n" h with
        | VNum n =>
            if Z.eqb n 0 then throws VNull (set_prop 1%positive "n" (VNum (n + 1)) h)
            else returns (VNum 42) (set_prop 1%positive "n" (VNum (n + 1)) h)
        | _ => throws (TypeError "bad counter") h
        end
    | 10%nat => throws (Error "boom") h
    | 11%nat => returns VUndef h
    | 12%nat =>
        match get_prop 1%positive "n" h with
        | VNum n =>
            returns (if Z.ltb n 2 then VBool false else VNum 42)
              (set_prop 1%positive "n" (VNum (n + 1)) h)
        | _ => throws (TypeError "bad counter") h
        end
    | 13%nat => returns (VBool false) h
    | 14%nat => (Behaviour [[Error "bad"]] (Ok VUndef) [], h)
    | _ => returns (VNum 1) (<[1%positive := OArr []]> h)
    end.

(** An empty world, a world whose heap holds the array of the example in
    the source of [chain] at location 1, one with the array of the failing
    chain of the spec, one whose first step empties the array it was taken
    from, and one with a counter object at location 1. *)
Definition world0 : world := World ∅ [] [] [] [].
Definition world_steps : world :=
  World {[ 1%positive := OArr (map VFun [0; 1; 2]%nat) ]} [] [] [] [].
Definition world_failing : world :=
  World {[ 1%positive := OArr (map VFun [3; 4]%nat) ]} [] [] [] [].
Definition world_self_clearing : world :=
  World {[ 1%positive := OArr (map VFun [15; 4]%nat) ]} [] [] [] [].
Definition world_counter : world :=
  World {[ 1%positive := ORec {[ "n" := VNum 0 ]} ]} [] [] [] [].

(** ** The rest of the module: delay, delayReject, deferred *)

(** One [delay] or [delayReject] call: the returned promise, and the timer
    left with the host until it fires: its delay and the extra argument
    the host passes to the function it was given, which is [resolve] for
    [delay] and [reject] for [delayReject] ([dl_rejects]). *)
Record delay_call := DelayCall {
  dl_promise : pid;
  dl_rejects : bool;
  dl_timer : option (val * val)
}.

(** [new Promise(resolve => setTimeout(resolve, ms, resolveVal))] *)
Definition delay (ms resolveVal : val) : M delay_call :=
  let* p := new_Promise (fun p => ret VUndef) in
  ret (DelayCall p false (Some (ms, resolveVal))).

(** [new Promise((_, reject) => setTimeout(reject, ms, rejectVal))] *)
Definition delayReject (ms rejectVal : val) : M delay_call :=
  let* p := new_Promise (fun p => ret VUndef) in
  ret (DelayCall p true (Some (ms, rejectVal))).

(** The host firing the timer, once: it calls the function with the
    argument. *)
Definition delay_fire (c : delay_call) (w : world) : delay_call * world :=
  match dl_timer c with
  | Some (_, v) =>
      (DelayCall (dl_promise c) (dl_rejects c) None,
       snd ((if dl_rejects c then reject (dl_promise c) v
             else resolve (dl_promise c) v) w))
  | None => (c, w)
  end.

(** What [deferred()] returns: [{resolve, reject, promise}]. *)
Record deferred_handle := Deferred {
  df_resolve : val -> M val;
  df_reject : val -> M val;
  df_promise : pid
}.

Definition deferred : M deferred_handle :=
  let* p := new_Promise (fun p => ret VUndef) in
  ret (Deferred (resolve p) (reject p) p).

(** What the holder of a handle can do with it, and a run of such calls. *)
Inductive handle_call :=
| CallResolve (v : val)
| CallReject (e : val).

Definition handle_apply (h : deferred_handle) (c : handle_call) (w : world) : world :=
  match c with
  | CallResolve v => snd (df_resolve h v w)
  | CallReject e => snd (df_reject h e w)
  end.

Definition handle_run (h : deferred_handle) (cs : list handle_call) (w : world) : world :=
  fold_left (fun w c => handle_apply h c w) cs w.

Definition handle_settles (c : handle_call) : settlement :=
  match c with
  | CallResolve v => resolution v
  | CallReject e => Rejects e
  end.

(** ** [timeout] over a [delay]: the two timers of the host *)

(** The promise of a [delay] call as the value handed to [timeout]: a
    future, given by how its timer will settle it. *)
Definition delay_future (d : delay_call) : val :=
  VFuture match dl_timer d with
          | Some (_, v) => if dl_rejects d then Rejects v else resolution v
          | None => NeverSettles
          end.

Inductive race_event :=
| TimeoutTimer
| DelayTimer.

(** The host firing one of the two timers.  When the timer of the delay
    fires and settles its promise, the reaction [timeout] registered on it
    runs with that settlement, before any other timer.  (A thenable that
    the delay was given is taken as settled by then.) *)
Definition race_deliver (ev : race_event) (d : delay_call) (c : timeout_call)
    (w : world) : delay_call * timeout_call * world :=
  match ev with
  | TimeoutTimer =>
      let '(c', w') := timeout_deliver TimerFires c w in (d, c', w')
  | DelayTimer =>
      match dl_timer d with
      | Some _ =>
          let '(d', w1) := delay_fire d w in
          match cell w1 (dl_promise d') with
          | Some (Fulfills v) =>
              let '(c', w') := timeout_deliver (InputFulfils v) c w1 in (d', c', w')
          | Some (Rejects e) =>
              let '(c', w') := timeout_deliver (InputRejects e) c w1 in (d', c', w')
          | _ => (d', c, w1)
          end
      | None => (d, c, w)
      end
  end.

Fixpoint race_run (evs : list race_event) (d : delay_call) (c : timeout_call)
    (w : world) : delay_call * timeout_call * world :=
  match evs with
  | [] => (d, c, w)
  | ev :: evs => let '(d', c', w') := race_deliver ev d c w in race_run evs d' c' w'
  end.

(** The order in which the host fires the two timers, which are set in the
    same turn: by the delay the host gives each ([host_delay]); with equal
    delays [delay_first] says which comes first. *)
Definition race_order (ms_timeout ms_delay : Z) (delay_first : bool) : list race_event :=
  if Z.ltb (host_delay ms_delay) (host_delay ms_timeout)
     || (Z.eqb (host_delay ms_delay) (host_delay ms_timeout) && delay_first)
  then [DelayTimer; TimeoutTimer]
  else [TimeoutTimer; DelayTimer].

(** The caller functions of the further examples, by number:
    - 0: [() => 1]
    - 1: [() => new Promise(() => {})], a future that never settles
    - 2: [cb => { throw new Error("early") }]
    - 3: [cb => {}]
    - 4: [cb => { setTimeout(cb, 0, null, 7) }], the callback deferred
    - any other: [() => { throw new Error("cleanup") }] *)
Definition demo2 (k : fid) : jsfun :=
  fun this args h =>
    match k with
    | 0%nat => returns (VNum 1) h
    | 1%nat => returns (VFuture NeverSettles) h
    | 2%nat => throws (Error "early") h
    | 3%nat => returns VUndef h
    | 4%nat => (Behaviour [] (Ok VUndef) [[VNull; VNum 7]], h)
    | _ => throws (Error "cleanup") h
    end.

(** What [slice] accepts: an array value or an array in the heap. *)
Definition is_array (v : val) (h : gmap loc obj) : bool :=
  match v with
  | VArr _ => true
  | VObj l => match h !! l with Some (OArr _) => true | _ => false end
  | _ => false
  end.

(** Worlds of the further examples: arrays at location 1 holding
    [[() => 1, null, throwing]], [[() => 1, 42, throwing]] and
    [[() => 1, never settling, throwing]]. *)
Definition world_falsy_entry : world :=
  World {[ 1%positive := OArr (map VFun [0%nat] ++ VNull :: [VFun 5%nat]) ]} [] [] [] [].
Definition world_number_entry : world :=
  World {[ 1%positive := OArr (map VFun [0%nat] ++ VNum 42 :: [VFun 5%nat]) ]} [] [] [] [].
Definition world_pending_step : world :=
  World {[ 1%positive := OArr (map VFun ([0] ++ 1 :: [5])%nat) ]} [] [] [] [].

(** The ticks among the events the host delivers to a [waitFor] call. *)
Definition is_tick (ev : waitFor_event) : bool :=
  match ev with Tick => true | Deadline => false end.

Definition ticks_of (evs : list waitFor_event) : list waitFor_event :=
  List.filter is_tick evs.

(** * Properties *)

(** ** The host model *)

Lemma resolution_fulfils_plain :
  forall v r, resolution v = Fulfills r -> resolution r = Fulfills r.
Proof.
  fix IH 1. intros v r H.
  destruct v as [ | | b | n | s | nm msg | l | l | f | many p | s ];
    try (simpl in H; injection H as <-; reflexivity).
  destruct s as [y | e | ]; simpl in H; try discriminate.
  exact (IH y r H).
Qed.

Lemma resolution_not_future v :
  is_future v = false -> resolution v = Fulfills v.
Proof. destruct v; simpl; intros; try reflexivity; discriminate. Qed.

Lemma cell_pending_iff w p :
  cells w !! p = Some None <-> (p < length (cells w))%nat /\ cell w p = None.
Proof.
  unfold cell. split.
  - intros H. rewrite H. split; [ eapply lookup_lt_Some; eassumption | reflexivity ].
  - intros [Hlt Hc]. destruct (lookup_lt_is_Some_2 _ _ Hlt) as [c Hp].
    rewrite Hp in *. now subst.
Qed.

Lemma settle_pending w p s :
  cells w !! p = Some None ->
  settle p s w = set_cells (<[p := Some s]> (cells w)) w.
Proof. unfold settle. now intros ->. Qed.

Lemma settle_settled w p s s0 :
  cell w p = Some s0 -> settle p s w = w.
Proof.
  unfold settle, cell. destruct (cells w !! p) as [[c|]|]; try discriminate; reflexivity.
Qed.

Lemma cell_settle_pending w p s :
  cells w !! p = Some None -> cell (settle p s w) p = Some s.
Proof.
  intros H. rewrite settle_pending by assumption. unfold cell. simpl.
  rewrite list_lookup_insert_eq; [ reflexivity | eapply lookup_lt_Some; eassumption ].
Qed.

Lemma cell_settle_other w p q s :
  p <> q -> cell (settle p s w) q = cell w q.
Proof.
  intros Hne. unfold settle, cell.
  destruct (cells w !! p) as [[c|]|]; try reflexivity.
  simpl. now rewrite list_lookup_insert_ne.
Qed.

Lemma settle_frame w p s :
  heap (settle p s w) = heap w /\ trace (settle p s w) = trace w /\
  console (settle p s w) = console w /\ later (settle p s w) = later w /\
  length (cells (settle p s w)) = length (cells w).
Proof.
  unfold settle. destruct (cells w !! p) as [[c|]|]; simpl; repeat split;
    try reflexivity. apply length_insert.
Qed.

Lemma cell_settle_cases w p q s :
  cell (settle p s w) q = cell w q \/ (p = q /\ cell w q = None /\ cell (settle p s w) q = Some s).
Proof.
  destruct (decide (p = q)) as [->|Hne].
  - unfold settle. destruct (cells w !! q) as [[c|]|] eqn:E.
    + now left.
    + right. split; [reflexivity|]. split.
      * unfold cell. now rewrite E.
      * unfold cell. simpl. rewrite list_lookup_insert_eq; [reflexivity|].
        eapply lookup_lt_Some; eassumption.
    + now left.
  - left. now apply cell_settle_other.
Qed.

(** A settled cell stays as it is. *)
Lemma settle_keeps w p q s s0 :
  cell w q = Some s0 -> cell (settle p s w) q = Some s0.
Proof.
  intros H. destruct (cell_settle_cases w p q s) as [E|(_ & E & _)]; congruence.
Qed.

(** ** chain *)

Section ChainProofs.

Variable ftab : fid -> jsfun.

Lemma callbacks_on_object a calls w :
  run_callbacks (map (fun c => (VObj a, c)) calls) w = w.
Proof.
  unfold run_callbacks. revert w.
  induction calls as [|c calls IH]; intros w; simpl; auto.
Qed.

(** A step called with the previous result and the shared object. *)
Lemma call_step k prev a w :
  call ftab (VFun k) VUndef [prev; VObj a] w =
  (outcome (ftab k VUndef [prev; VObj a] (heap w)).1,
   World (ftab k VUndef [prev; VObj a] (heap w)).2 (cells w)
     (trace w ++ [ECall k VUndef [prev; VObj a]]) (console w)
     (later w ++ map (fun c => (VObj a, c))
                   (cb_async (ftab k VUndef [prev; VObj a] (heap w)).1))).
Proof.
  unfold call. destruct (ftab k VUndef [prev; VObj a] (heap w)) as [b h] eqn:E.
  cbn [fst snd List.last]. rewrite callbacks_on_object. reflexivity.
Qed.

Lemma chainResolveNext_spec ks :
  forall prev a p w tr s h',
    cells w !! p = Some None ->
    resolution prev = Fulfills prev ->
    chain_spec ftab ks prev (VObj a) (heap w) = (tr, s, h') ->
    exists w',
      _chainResolveNext ftab (map VFun ks) prev (VObj a) p w = (Ok VUndef, w') /\
      trace w' = trace w ++ tr /\ heap w' = h' /\ cell w' p = s /\
      length (cells w') = length (cells w) /\ console w' = console w.
Proof.
  induction ks as [|k ks IH]; intros prev a p w tr s h' Hp Hprev Hspec.
  - simpl in Hspec. injection Hspec as <- <- <-.
    simpl. unfold resolve, modify. eexists. split; [reflexivity|].
    destruct (settle_frame w p (resolution prev)) as (Hh & Ht & Hc & _ & Hl).
    rewrite Ht, Hh, Hc, Hl, app_nil_r, cell_settle_pending, Hprev by assumption.
    repeat split; reflexivity.
  - simpl in Hspec. simpl.
    unfold try_catch, bind at 1. rewrite call_step.
    destruct (ftab k VUndef [prev; VObj a] (heap w)) as [b h1] eqn:E. simpl.
    set (w1 := World h1 (cells w) _ (console w) _).
    assert (Hp1 : cells w1 !! p = Some None) by exact Hp.
    destruct (outcome b) as [x | err].
    + unfold bind at 1. unfold then_, Promise_resolve.
      destruct (resolution x) as [result | err | ] eqn:Ex.
      * destruct (chain_spec ftab ks result (VObj a) h1) as [[tr2 s2] h2] eqn:E2.
        injection Hspec as <- <- <-.
        destruct (IH result a p w1 tr2 s2 h2 Hp1 (resolution_fulfils_plain _ _ Ex) E2)
          as (w' & Hrun & Ht & Hh & Hc & Hl & Hcon).
        rewrite Hrun. simpl. exists w'. split; [reflexivity|].
        rewrite Ht. subst w1. simpl. rewrite <- app_assoc. simpl.
        repeat split; assumption.
      * injection Hspec as <- <- <-. simpl.
        unfold reject, modify. simpl. eexists. split; [reflexivity|].
        destruct (settle_frame w1 p (Rejects err)) as (Hh & Ht & Hc & _ & Hl).
        rewrite Ht, Hh, Hc, Hl, cell_settle_pending by assumption.
        repeat split; reflexivity.
      * injection Hspec as <- <- <-. simpl.
        exists w1. split; [reflexivity|]. repeat split; try reflexivity.
        apply cell_pending_iff in Hp1. tauto.
    + injection Hspec as <- <- <-.
      unfold reject, modify. eexists. split; [reflexivity|].
      destruct (settle_frame w1 p (Rejects err)) as (Hh & Ht & Hc & _ & Hl).
      rewrite Ht, Hh, Hc, Hl, cell_settle_pending by assumption.
      repeat split; reflexivity.
Qed.

(** Steps that all fulfil hand their last result on to the rest. *)
Lemma chain_spec_app pre :
  forall rest prev akku h tr last h1,
    chain_spec ftab pre prev akku h = (tr, Some (Fulfills last), h1) ->
    chain_spec ftab (pre ++ rest) prev akku h =
    ((tr ++ (chain_spec ftab rest last akku h1).1.1,
      (chain_spec ftab rest last akku h1).1.2),
     (chain_spec ftab rest last akku h1).2).
Proof.
  induction pre as [|k pre IH]; intros rest prev akku h tr last h1 H.
  - simpl in H. injection H as <- <- <-. simpl.
    now destruct (chain_spec ftab rest prev akku h) as [[? ?] ?].
  - simpl in H. simpl.
    destruct (ftab k VUndef [prev; akku] h) as [b h0].
    destruct (outcome b) as [x|err]; [|discriminate].
    destruct (resolution x) as [result|err|]; try discriminate.
    destruct (chain_spec ftab pre result akku h0) as [[tr0 s0] h2] eqn:E.
    injection H as <- -> <-.
    rewrite (IH rest result akku h0 tr0 last h2 E). reflexivity.
Qed.

(** Steps that leave a location alone leave it alone together. *)
Lemma chain_spec_preserves l ks :
  forall prev akku h,
    (forall k prev h, In k ks -> (ftab k VUndef [prev; akku] h).2 !! l = h !! l) ->
    (chain_spec ftab ks prev akku h).2 !! l = h !! l.
Proof.
  induction ks as [|k ks IH]; intros prev akku h H; simpl; [reflexivity|].
  pose proof (H k prev h (or_introl eq_refl)) as Hk.
  destruct (ftab k VUndef [prev; akku] h) as [b h0]. simpl in Hk.
  destruct (outcome b) as [x|err]; [|exact Hk].
  destruct (resolution x) as [result|err|]; try exact Hk.
  specialize (IH result akku h0 (fun k' p' h' Hin => H k' p' h' (or_intror Hin))).
  destruct (chain_spec ftab ks result akku h0) as [[tr0 s0] h2].
  simpl in *. congruence.
Qed.

(** The call itself: a fresh cell, the copy, the fresh object, then the
    steps. *)
Lemma chain_unfold l ks w :
  heap w !! l = Some (OArr (map VFun ks)) ->
  let a := fresh (dom (heap w)) in
  let p := length (cells w) in
  exists w',
    chain ftab (VObj l) w = (Ok p, w') /\
    trace w' = trace w ++ (chain_spec ftab ks VUndef (VObj a) (<[a := ORec ∅]> (heap w))).1.1 /\
    heap w' = (chain_spec ftab ks VUndef (VObj a) (<[a := ORec ∅]> (heap w))).2 /\
    cell w' p = (chain_spec ftab ks VUndef (VObj a) (<[a := ORec ∅]> (heap w))).1.2.
Proof.
  intros Hl a p.
  destruct (chain_spec ftab ks VUndef (VObj a) (<[a := ORec ∅]> (heap w)))
    as [[tr s] h'] eqn:Hspec.
  set (w1 := set_heap (<[a := ORec ∅]> (heap w)) (set_cells (cells w ++ [None]) w)).
  assert (Hp : cells w1 !! p = Some None).
  { subst w1 p. simpl. rewrite lookup_app_r by lia. now rewrite Nat.sub_diag. }
  destruct (chainResolveNext_spec ks VUndef a p w1 tr s h' Hp eq_refl Hspec)
    as (w' & Hrun & Ht & Hh & Hc & _).
  exists w'. unfold chain, new_Promise, bind, slice, new_object.
  cbv beta. change (heap (set_cells (cells w ++ [None]) w)) with (heap w).
  rewrite Hl. cbv beta iota.
  change (heap (set_cells (cells w ++ [None]) w)) with (heap w).
  fold a. fold p. fold w1. rewrite Hrun. simpl. auto.
Qed.

(** The function a logged call went to. *)
Lemma chain_spec_fulfils_calls pre :
  forall prev akku h tr last h1,
    chain_spec ftab pre prev akku h = (tr, Some (Fulfills last), h1) ->
    map called tr = pre.
Proof.
  induction pre as [|k pre IH]; intros prev akku h tr last h1 H; simpl in H.
  - now injection H as <- _ _.
  - destruct (ftab k VUndef [prev; akku] h) as [b h0].
    destruct (outcome b) as [x|err]; [|discriminate].
    destruct (resolution x) as [result|err|]; try discriminate.
    destruct (chain_spec ftab pre result akku h0) as [[tr0 s0] h2] eqn:E.
    injection H as <- -> <-. simpl. f_equal. eapply IH; eassumption.
Qed.

(** C1. For every list of steps (caller functions [ks], held in the
    caller's array at [l]), [chain] returns a fresh future [p] without
    throwing, works on a copy taken at the call (the steps run are [ks]
    whatever the steps later do to the heap), creates a fresh empty object
    [a] as shared state, and calls the steps from left to right exactly as
    [chain_spec] reads section 4.5: the first with [undefined], each next
    one with the fulfilment value of the previous step's normalised result
    and the same object [a]; when none remain the future fulfils with the
    most recent result.  The only heap write of [chain] itself is the fresh
    object, so the caller's array is as before unless a step writes it. *)
Theorem chain_runs_steps_in_order ks l w :
  heap w !! l = Some (OArr (map VFun ks)) ->
  let a := fresh (dom (heap w)) in
  let p := length (cells w) in
  let spec := chain_spec ftab ks VUndef (VObj a) (<[a := ORec ∅]> (heap w)) in
  exists w',
    chain ftab (VObj l) w = (Ok p, w') /\
    heap w !! a = None /\ cell w p = None /\
    trace w' = trace w ++ spec.1.1 /\
    cell w' p = spec.1.2 /\
    heap w' = spec.2 /\
    (<[a := ORec ∅]> (heap w)) !! l = Some (OArr (map VFun ks)) /\
    ((forall k prev h, In k ks -> (ftab k VUndef [prev; VObj a] h).2 !! l = h !! l) ->
     heap w' !! l = Some (OArr (map VFun ks))).
Proof.
  intros Hl a p spec.
  destruct (chain_unfold l ks w Hl) as (w' & Hrun & Ht & Hh & Hc).
  assert (Ha : heap w !! a = None).
  { apply not_elem_of_dom. subst a. apply is_fresh. }
  assert (Hne : a <> l) by (intros ->; congruence).
  exists w'. split; [exact Hrun|]. split; [exact Ha|]. split.
  { unfold cell. subst p. now rewrite lookup_ge_None_2 by lia. }
  split; [exact Ht|]. split; [exact Hc|]. split; [exact Hh|]. split.
  { now rewrite lookup_insert_ne. }
  intros Hsteps. rewrite Hh.
  rewrite (chain_spec_preserves l ks VUndef (VObj a) _ Hsteps).
  now rewrite lookup_insert_ne.
Qed.

(** C2. If the steps before step [k] all fulfil and step [k] throws [e] or
    returns a future that rejects with [e], the call of [chain] still
    returns normally (a future, no exception), that future rejects with
    the same [e], and the functions called are the steps up to [k] and
    none after it. *)
Theorem chain_rejects_at_first_failure pre k post l w tr prev h1 e :
  heap w !! l = Some (OArr (map VFun (pre ++ k :: post))) ->
  let a := fresh (dom (heap w)) in
  let p := length (cells w) in
  chain_spec ftab pre VUndef (VObj a) (<[a := ORec ∅]> (heap w))
    = (tr, Some (Fulfills prev), h1) ->
  (outcome (ftab k VUndef [prev; VObj a] h1).1 = Exn e \/
   exists x, outcome (ftab k VUndef [prev; VObj a] h1).1 = Ok x /\
             resolution x = Rejects e) ->
  exists w',
    chain ftab (VObj l) w = (Ok p, w') /\
    cell w' p = Some (Rejects e) /\
    trace w' = trace w ++ tr ++ [ECall k VUndef [prev; VObj a]] /\
    map called (tr ++ [ECall k VUndef [prev; VObj a]]) = pre ++ [k].
Proof.
  intros Hl a p Hpre Hk.
  destruct (chain_unfold l _ w Hl) as (w' & Hrun & Ht & Hh & Hc).
  fold a in Ht, Hh, Hc. fold p in Hrun, Hc.
  rewrite (chain_spec_app pre (k :: post) _ _ _ _ _ _ Hpre) in Ht, Hc.
  assert (Hstep : (chain_spec ftab (k :: post) prev (VObj a) h1).1 =
                  ([ECall k VUndef [prev; VObj a]], Some (Rejects e))).
  { simpl. destruct (ftab k VUndef [prev; VObj a] h1) as [b h2]. simpl in Hk.
    destruct Hk as [Hk | (x & Hk & Hx)]; rewrite Hk; [reflexivity|].
    now rewrite Hx. }
  destruct (chain_spec ftab (k :: post) prev (VObj a) h1) as [[tr2 s2] h2].
  injection Hstep as -> ->. cbn [fst snd] in Ht, Hc.
  exists w'. split; [exact Hrun|]. split; [exact Hc|]. split; [exact Ht|].
  rewrite map_app. simpl. f_equal. eapply chain_spec_fulfils_calls; eassumption.
Qed.

End ChainProofs.

(** ** The adapters *)

Lemma apply_callback_settle many p a w :
  apply_callback (VCallback many p) a w = settle p (completion_settles many a) w.
Proof.
  unfold apply_callback, completion, completion_settles, reject, resolve, modify.
  destruct many.
  - destruct (truthy (hd VUndef a)); reflexivity.
  - replace (nth 0 a VUndef) with (hd VUndef a) by (destruct a; reflexivity).
    destruct (truthy (hd VUndef a)); reflexivity.
Qed.

Lemma apply_callback_cases cb a w :
  apply_callback cb a w = w \/ exists p s, apply_callback cb a w = settle p s w.
Proof.
  destruct cb; try (left; reflexivity).
  right. eexists _, _. apply apply_callback_settle.
Qed.

Lemma apply_callback_frame cb a w :
  heap (apply_callback cb a w) = heap w /\ trace (apply_callback cb a w) = trace w /\
  console (apply_callback cb a w) = console w /\ later (apply_callback cb a w) = later w /\
  length (cells (apply_callback cb a w)) = length (cells w).
Proof.
  destruct (apply_callback_cases cb a w) as [-> | (p & s & ->)]; [tauto|].
  apply settle_frame.
Qed.

Lemma apply_callback_keeps cb a w q s :
  cell w q = Some s -> cell (apply_callback cb a w) q = Some s.
Proof.
  destruct (apply_callback_cases cb a w) as [-> | (p & s' & ->)]; [tauto|].
  apply settle_keeps.
Qed.

Lemma settle_other_lookup w p q s :
  p <> q -> cells (settle p s w) !! q = cells w !! q.
Proof.
  intros Hne. unfold settle. destruct (cells w !! p) as [[c|]|]; try reflexivity.
  simpl. now rewrite list_lookup_insert_ne.
Qed.

Lemma apply_callback_below cb a w p :
  targets_below p (cb, a) -> cells (apply_callback cb a w) !! p = cells w !! p.
Proof.
  unfold targets_below. simpl. intros H.
  destruct cb; try reflexivity.
  rewrite apply_callback_settle. apply settle_other_lookup. lia.
Qed.

Lemma run_callbacks_frame calls : forall w,
  heap (run_callbacks calls w) = heap w /\ trace (run_callbacks calls w) = trace w /\
  console (run_callbacks calls w) = console w /\ later (run_callbacks calls w) = later w /\
  length (cells (run_callbacks calls w)) = length (cells w).
Proof.
  induction calls as [|c calls IH]; intros w; [simpl; tauto|].
  change (run_callbacks (c :: calls) w)
    with (run_callbacks calls (apply_callback (fst c) (snd c) w)).
  destruct (IH (apply_callback (fst c) (snd c) w)) as (-> & -> & -> & -> & ->).
  apply apply_callback_frame.
Qed.

Lemma run_callbacks_keeps calls : forall w q s,
  cell w q = Some s -> cell (run_callbacks calls w) q = Some s.
Proof.
  induction calls as [|c calls IH]; intros w q s H; [exact H|].
  apply IH. now apply apply_callback_keeps.
Qed.

Lemma run_callbacks_below calls p : forall w,
  Forall (targets_below p) calls ->
  cells (run_callbacks calls w) !! p = cells w !! p.
Proof.
  induction calls as [|[cb a] calls IH]; intros w H; [reflexivity|].
  inversion H as [|? ? Hc Hrest]; subst.
  change (run_callbacks ((cb, a) :: calls) w)
    with (run_callbacks calls (apply_callback cb a w)).
  rewrite IH by assumption. now apply apply_callback_below.
Qed.

Lemma run_callbacks_app l1 l2 w :
  run_callbacks (l1 ++ l2) w = run_callbacks l2 (run_callbacks l1 w).
Proof. unfold run_callbacks. apply fold_left_app. Qed.

(** The first call that finds the promise pending settles it; no later
    call changes it. *)
Lemma run_callbacks_first many p a calls w :
  cells w !! p = Some None ->
  cell (run_callbacks ((VCallback many p, a) :: calls) w) p
  = Some (completion_settles many a).
Proof.
  intros H.
  change (run_callbacks ((VCallback many p, a) :: calls) w)
    with (run_callbacks calls (apply_callback (VCallback many p) a w)).
  apply run_callbacks_keeps. rewrite apply_callback_settle.
  now apply cell_settle_pending.
Qed.

Section AdapterProofs.

Variable ftab : fid -> jsfun.

(** One call of an adapted function: a fresh promise, one call of [func]
    with the callback appended and the caller's [this]; the first
    completion call settles the promise. *)
Lemma promiseGenerator_spec many k self args w :
  later_wf w ->
  let p := length (cells w) in
  let cb := VCallback many p in
  let b := (ftab k self (args ++ [cb]) (heap w)).1 in
  exists w',
    promiseGenerator ftab many (VFun k) self args w = (Ok p, w') /\
    trace w' = trace w ++ [ECall k self (args ++ [cb])] /\
    trace (drain w') = trace w' /\
    (forall a, first_completion b = Some a ->
               cell (drain w') p = Some (completion_settles many a)).
Proof.
  intros Hwf p cb b.
  unfold promiseGenerator, new_Promise, call. fold p. fold cb.
  change (heap (set_cells (cells w ++ [None]) w)) with (heap w).
  subst b. destruct (ftab k self (args ++ [cb]) (heap w)) as [b h]. cbn [fst].
  rewrite last_last.
  set (w1 := set_heap h (log_event (ECall k self (args ++ [cb]))
                           (set_cells (cells w ++ [None]) w))).
  set (w2 := run_callbacks (map (fun a => (cb, a)) (cb_sync b)) w1).
  set (w3 := set_later (later w2 ++ map (fun a => (cb, a)) (cb_async b)) w2).
  assert (Hp1 : cells w1 !! p = Some None).
  { subst w1 p. simpl. rewrite lookup_app_r by lia. now rewrite Nat.sub_diag. }
  destruct (run_callbacks_frame (map (fun a => (cb, a)) (cb_sync b)) w1)
    as (Hh2 & Ht2 & Hc2 & Hl2 & Hn2). fold w2 in Hh2, Ht2, Hc2, Hl2, Hn2.
  assert (Hlater : later w3 = later w ++ map (fun a => (cb, a)) (cb_async b)).
  { subst w3. simpl. now rewrite Hl2. }
  assert (Hgoal : forall w',
            (w' = w3 \/ exists e, outcome b = Exn e /\ w' = settle p (Rejects e) w3) ->
            trace w' = trace w ++ [ECall k self (args ++ [cb])] /\
            trace (drain w') = trace w' /\
            (forall a, first_completion b = Some a ->
               cell (drain w') p = Some (completion_settles many a))).
  { intros w' Hw'.
    assert (Hfr : trace w' = trace w3 /\ later w' = later w3).
    { destruct Hw' as [-> | (e & _ & ->)]; [tauto|].
      destruct (settle_frame w3 p (Rejects e)) as (_ & -> & _ & -> & _). tauto. }
    destruct Hfr as [Ht Hl].
    split; [rewrite Ht; subst w3; simpl; now rewrite Ht2|].
    unfold drain. split.
    { now destruct (run_callbacks_frame (later w') (set_later [] w')) as (_ & -> & _). }
    intros a Ha. unfold first_completion in Ha.
    destruct (cb_sync b) as [|a0 rest0] eqn:Es.
    - destruct (outcome b) as [x|e] eqn:Eo; [|discriminate].
      destruct (cb_async b) as [|a1 rest1] eqn:Ea; [discriminate|].
      injection Ha as ->.
      destruct Hw' as [-> | (e & He & _)]; [|discriminate].
      rewrite Hlater, run_callbacks_app. simpl map.
      apply run_callbacks_first.
      rewrite run_callbacks_below.
      + subst w3 w2. simpl. exact Hp1.
      + replace (length (cells (set_later [] w3))) with (S p).
        * eapply Forall_impl; [exact Hwf|]. intros [c args0].
          unfold targets_below. simpl. fold p. destruct c; auto; lia.
        * subst w3. simpl. rewrite ?Hn2. subst w1. simpl.
          rewrite length_app. simpl. subst p. lia.
    - injection Ha as ->.
      apply run_callbacks_keeps.
      assert (H3 : cell w3 p = Some (completion_settles many a)).
      { subst w3. unfold cell. simpl. subst w2. simpl map.
        change (cell (run_callbacks ((cb, a) :: map (fun a => (cb, a)) rest0) w1) p
                = Some (completion_settles many a)).
        now apply run_callbacks_first. }
      destruct Hw' as [-> | (e & _ & ->)]; [exact H3|].
      change (cell (settle p (Rejects e) w3) p = Some (completion_settles many a)).
      now apply settle_keeps. }
  destruct (outcome b) as [x|e] eqn:Eo.
  - exists w3. split; [reflexivity|]. apply Hgoal. now left.
  - exists (settle p (Rejects e) w3). split; [reflexivity|]. apply Hgoal. eauto.
Qed.

(** C7. [convertCallbackFun(fn)] only builds the adapted function: [fn] is
    not called and nothing changes.  One call of the adapted function on
    [self] with [args] returns a fresh future and calls [fn] exactly once,
    with [self] as [this] and with [args] followed by the completion
    callback; running the deferred calls adds no call.  When the
    completion callback first runs, with arguments [a], the future rejects
    with the first argument if that is truthy, and otherwise resolves with
    the second argument alone (it fulfils with it, unless that value is
    itself a thenable, which [resolve] follows); the arguments after the
    second play no part. *)
Theorem convertCallbackFun_adapts k self args w :
  later_wf w ->
  let p := length (cells w) in
  let completion := VCallback false p in
  let b := (ftab k self (args ++ [completion]) (heap w)).1 in
  convertCallbackFun (VFun k) w = (Ok (PromiseGenerator false (VFun k)), w) /\
  exists w',
    apply_adapted ftab (PromiseGenerator false (VFun k)) self args w = (Ok p, w') /\
    cell w p = None /\
    trace w' = trace w ++ [ECall k self (args ++ [completion])] /\
    trace (drain w') = trace w' /\
    (forall a, first_completion b = Some a ->
       let error := nth 0 a VUndef in
       let result := nth 1 a VUndef in
       (truthy error = true -> cell (drain w') p = Some (Rejects error)) /\
       (truthy error = false -> cell (drain w') p = Some (resolution result)) /\
       (truthy error = false -> is_future result = false ->
        cell (drain w') p = Some (Fulfills result))).
Proof.
  intros Hwf p completion b. split; [reflexivity|].
  destruct (promiseGenerator_spec false k self args w Hwf)
    as (w' & Hrun & Ht & Hd & Hc).
  exists w'. split; [exact Hrun|]. split.
  { unfold cell. subst p. now rewrite lookup_ge_None_2 by lia. }
  split; [exact Ht|]. split; [exact Hd|].
  intros a Ha error result. unfold p. rewrite (Hc a Ha). unfold completion_settles.
  replace (hd VUndef a) with error by (destruct a; reflexivity). fold result.
  repeat split; intros He; rewrite He; try reflexivity.
  intros Hr. now rewrite resolution_not_future.
Qed.

(** C8. One call of a function adapted by
    [convertCallbackFunWithManyArgs] calls [fn] once with the completion
    callback appended; when the completion callback first runs, with
    arguments [a], the future rejects with the first argument if that is
    truthy, and otherwise fulfils with the array of all the arguments
    after the first, in order. *)
Theorem convertCallbackFunWithManyArgs_adapts k self args w :
  later_wf w ->
  let p := length (cells w) in
  let completion := VCallback true p in
  let b := (ftab k self (args ++ [completion]) (heap w)).1 in
  convertCallbackFunWithManyArgs (VFun k) w = (Ok (PromiseGenerator true (VFun k)), w) /\
  exists w',
    apply_adapted ftab (PromiseGenerator true (VFun k)) self args w = (Ok p, w') /\
    trace w' = trace w ++ [ECall k self (args ++ [completion])] /\
    trace (drain w') = trace w' /\
    (forall error results, first_completion b = Some (error :: results) ->
       (truthy error = true -> cell (drain w') p = Some (Rejects error)) /\
       (truthy error = false -> cell (drain w') p = Some (Fulfills (VArr results)))) /\
    (first_completion b = Some [] -> cell (drain w') p = Some (Fulfills (VArr []))).
Proof.
  intros Hwf p completion b. split; [reflexivity|].
  destruct (promiseGenerator_spec true k self args w Hwf)
    as (w' & Hrun & Ht & Hd & Hc).
  exists w'. split; [exact Hrun|]. split; [exact Ht|]. split; [exact Hd|]. split.
  - intros error results Ha. unfold p. rewrite (Hc _ Ha).
    unfold completion_settles. simpl.
    split; intros He; rewrite He; reflexivity.
  - intros Ha. unfold p. now rewrite (Hc _ Ha).
Qed.

End AdapterProofs.

(** C9. [promise(x)] returns a function exactly when [x] is a function,
    and then it is [convertCallbackFun(x)], with nothing called; for every
    other [x] it returns a future: one that fulfils with [x] when [x] is
    not a thenable, and one that settles as [x] does when [x] is a
    thenable (rejected, never settling, or fulfilled with a value). *)
Theorem promise_converts x w :
  (is_function x = true ->
   exists g, convertCallbackFun x w = (Ok g, w) /\ promise x w = (Ok (AFunction g), w)) /\
  (forall g w', promise x w = (Ok (AFunction g), w') -> is_function x = true) /\
  (is_function x = false -> promise x w = (Ok (APromise (resolution x)), w)) /\
  (is_function x = false -> is_future x = false ->
   promise x w = (Ok (APromise (Fulfills x)), w)) /\
  (forall e, promise (VFuture (Rejects e)) w = (Ok (APromise (Rejects e)), w)) /\
  promise (VFuture NeverSettles) w = (Ok (APromise NeverSettles), w) /\
  (forall v, is_future v = false ->
   promise (VFuture (Fulfills v)) w = (Ok (APromise (Fulfills v)), w)).
Proof.
  unfold promise, convertCallbackFun, Promise_resolve, bind, ret.
  split; [|split; [|split; [|split; [|split; [|split]]]]].
  - intros ->. eauto.
  - intros g w'. destruct (is_function x); [reflexivity|discriminate].
  - now intros ->.
  - intros -> Hf. now rewrite resolution_not_future.
  - reflexivity.
  - reflexivity.
  - intros v Hv. simpl. now rewrite resolution_not_future.
Qed.

(** ** timeout *)

Lemma timeout_done_ignores ev c w :
  done c = true ->
  done (timeout_deliver ev c w).1 = true /\ (timeout_deliver ev c w).2 = w.
Proof.
  intros Hd. unfold timeout_deliver, timeout_timer, timeout_val, timeout_err.
  destruct ev; simpl; rewrite Hd; simpl.
  - destruct (t_timer c); simpl; auto.
  - destruct (t_reactions c); simpl; auto.
  - destruct (t_reactions c); simpl; auto.
Qed.

Lemma timeout_run_done evs : forall c w,
  done c = true -> (timeout_run evs c w).2 = w.
Proof.
  induction evs as [|ev evs IH]; intros c w Hd; [reflexivity|].
  simpl. destruct (timeout_done_ignores ev c w Hd) as [Hd' Hw].
  destruct (timeout_deliver ev c w) as [c' w']. simpl in *. subst w'.
  now apply IH.
Qed.

(** C4. For every thenable and delay, [timeout] returns a fresh pending
    future, with [done] false, the timer set and the two reactions taken.
    Whatever the host delivers first decides: the timer rejects the future
    with [Error('Promise timed out')]; a fulfilment of the input resolves
    it with that value (fulfils it, the value of a settled future not being
    a thenable); a rejection of the input rejects it with the same error.
    That first event sets [done], and every event after it leaves the whole
    state as it is: the future is settled once and the loser is
    discarded. *)
Theorem timeout_first_settle_wins ms s w ev evs :
  let p := length (cells w) in
  exists c w0,
    timeout ms (VFuture s) w = (Ok c, w0) /\
    t_promise c = p /\ done c = false /\ t_timer c = Some ms /\
    cell w p = None /\ cell w0 p = None /\
    let c1 := (timeout_deliver ev c w0).1 in
    let w1 := (timeout_deliver ev c w0).2 in
    done c1 = true /\
    cell w1 p = Some match ev with
                     | TimerFires => Rejects (Error "Promise timed out")
                     | InputFulfils v => resolution v
                     | InputRejects e => Rejects e
                     end /\
    (forall v, ev = InputFulfils v -> is_future v = false ->
               cell w1 p = Some (Fulfills v)) /\
    (timeout_run (ev :: evs) c w0).2 = w1 /\
    heap w1 = heap w /\ trace w1 = trace w.
Proof.
  intros p.
  set (w0 := set_cells (cells w ++ [None]) w).
  assert (Hp : cells w0 !! p = Some None).
  { subst w0 p. simpl. rewrite lookup_app_r by lia. now rewrite Nat.sub_diag. }
  exists (TimeoutCall p false (Some ms) true), w0.
  split; [reflexivity|]. split; [reflexivity|]. split; [reflexivity|].
  split; [reflexivity|]. split.
  { unfold cell. subst p. now rewrite lookup_ge_None_2 by lia. }
  split; [apply cell_pending_iff in Hp; tauto|].
  intros c1 w1.
  assert (H1 : done c1 = true /\
               w1 = settle p match ev with
                             | TimerFires => Rejects (Error "Promise timed out")
                             | InputFulfils v => resolution v
                             | InputRejects e => Rejects e
                             end w0).
  { subst c1 w1. destruct ev; simpl; auto. }
  destruct H1 as [Hd Hw1].
  assert (Hcell : cell w1 p = Some match ev with
                     | TimerFires => Rejects (Error "Promise timed out")
                     | InputFulfils v => resolution v
                     | InputRejects e => Rejects e
                     end).
  { rewrite Hw1. now apply cell_settle_pending. }
  split; [exact Hd|]. split; [exact Hcell|]. split.
  { intros v -> Hv. rewrite Hcell. now rewrite resolution_not_future. }
  split.
  { simpl. fold c1 w1.
    destruct (timeout_deliver ev (TimeoutCall p false (Some ms) true) w0) as [c' w'].
    simpl in *. subst c1 w1. now apply timeout_run_done. }
  rewrite Hw1.
  destruct (settle_frame w0 p match ev with
                     | TimerFires => Rejects (Error "Promise timed out")
                     | InputFulfils v => resolution v
                     | InputRejects e => Rejects e
                     end) as (-> & -> & _).
  split; reflexivity.
Qed.

(** ** waitFor *)

Section WaitForProofs.

Variable ftab : fid -> jsfun.

Lemma call_tester k w :
  call ftab (VFun k) VUndef [] w =
  (outcome (ftab k VUndef [] (heap w)).1, after_tester ftab k w).
Proof.
  unfold call, after_tester. destruct (ftab k VUndef [] (heap w)) as [b h].
  cbn [fst snd List.last]. f_equal. f_equal.
  unfold run_callbacks. generalize (World h (cells w) (trace w ++ [ECall k VUndef []])
    (console w) (later w)).
  induction (cb_sync b) as [|a l IH]; intros w0; simpl; auto.
Qed.

Lemma after_tester_frame k w :
  cells (after_tester ftab k w) = cells w /\
  trace (after_tester ftab k w) = trace w ++ [ECall k VUndef []] /\
  heap (after_tester ftab k w) = (ftab k VUndef [] (heap w)).2.
Proof.
  unfold after_tester. destruct (ftab k VUndef [] (heap w)) as [b h]. auto.
Qed.

(** One tick of a call that has not stopped, case by case as the interval
    callback is written. *)
Lemma waitFor_tick_eq k c w c1 w1 :
  tester c = VFun k -> stopped c = false ->
  c1 = match outcome (ftab k VUndef [] (heap w)).1 with
       | Ok v => set_value v c
       | Exn e => set_error e c
       end ->
  w1 = after_tester ftab k w ->
  waitFor_tick ftab c w =
  if truthy (value c1) || truthy (error c1) then
    (Ok (clearInterval (set_stopped c1)),
     settle (w_promise c)
       (if truthy (error c1) then Rejects (error c1) else resolution (value c1)) w1)
  else (Ok c1, w1).
Proof.
  intros Ht Hs -> ->. unfold waitFor_tick. rewrite Hs.
  unfold bind at 1. unfold try_catch. unfold bind at 1.
  rewrite Ht, call_tester.
  destruct (outcome (ftab k VUndef [] (heap w)).1) as [v|e]; cbv zeta; unfold ret.
  - destruct (truthy (value (set_value v c)) || truthy (error (set_value v c))) eqn:E;
      [|reflexivity].
    unfold bind. simpl.
    destruct (truthy (error c)); reflexivity.
  - destruct (truthy (value (set_error e c)) || truthy (error (set_error e c))) eqn:E;
      [|reflexivity].
    unfold bind. simpl.
    destruct (truthy e); reflexivity.
Qed.

Ltac rewrite_tick k c w Ht Hs :=
  let X := fresh "X" in
  pose proof (waitFor_tick_eq k c w _ _ Ht Hs eq_refl eq_refl) as X;
  rewrite X; clear X.

(** A tester that returns a truthy value while no error is recorded
    fulfils the future with it (resolves, if the value is a thenable), and
    the interval is cleared. *)
Lemma waitFor_tick_truthy k c w v :
  tester c = VFun k -> stopped c = false -> w_interval c <> None ->
  truthy (error c) = false ->
  cells w !! w_promise c = Some None ->
  outcome (ftab k VUndef [] (heap w)).1 = Ok v -> truthy v = true ->
  let c' := (waitFor_deliver ftab Tick c w).1 in
  let w' := (waitFor_deliver ftab Tick c w).2 in
  cell w' (w_promise c) = Some (resolution v) /\
  stopped c' = true /\ w_interval c' = None /\
  trace w' = trace w ++ [ECall k VUndef []].
Proof.
  intros Ht Hs Hi He Hp Ho Hv c' w'. subst c' w'.
  unfold waitFor_deliver. destruct (w_interval c); [|congruence].
  rewrite_tick k c w Ht Hs; rewrite Ho. cbn [value set_value error].
  rewrite Hv, He. cbn [orb fst snd].
  destruct (after_tester_frame k w) as (Hc & Htr & _).
  split; [apply cell_settle_pending; now rewrite Hc|].
  split; [reflexivity|]. split; [reflexivity|].
  destruct (settle_frame (after_tester ftab k w) (w_promise c) (resolution v))
    as (_ & -> & _). exact Htr.
Qed.

(** A tester that throws a truthy value rejects the future with it, and
    the interval is cleared. *)
Lemma waitFor_tick_throws_truthy k c w e :
  tester c = VFun k -> stopped c = false -> w_interval c <> None ->
  cells w !! w_promise c = Some None ->
  outcome (ftab k VUndef [] (heap w)).1 = Exn e -> truthy e = true ->
  let c' := (waitFor_deliver ftab Tick c w).1 in
  let w' := (waitFor_deliver ftab Tick c w).2 in
  cell w' (w_promise c) = Some (Rejects e) /\
  stopped c' = true /\ w_interval c' = None /\
  trace w' = trace w ++ [ECall k VUndef []].
Proof.
  intros Ht Hs Hi Hp Ho Hv c' w'. subst c' w'.
  unfold waitFor_deliver. destruct (w_interval c); [|congruence].
  rewrite_tick k c w Ht Hs; rewrite Ho. cbn [value set_error error].
  rewrite Hv, orb_true_r. cbn [fst snd].
  destruct (after_tester_frame k w) as (Hc & Htr & _).
  split; [apply cell_settle_pending; now rewrite Hc|].
  split; [reflexivity|]. split; [reflexivity|].
  destruct (settle_frame (after_tester ftab k w) (w_promise c) (Rejects e))
    as (_ & -> & _). exact Htr.
Qed.

(** A tester that throws a falsy value, no truthy value or error being
    recorded: the thrown value is stored and nothing else happens; the
    future stays pending and the interval stays set. *)
Lemma waitFor_tick_throws_falsy k c w e :
  tester c = VFun k -> stopped c = false -> w_interval c <> None ->
  truthy (value c) = false ->
  outcome (ftab k VUndef [] (heap w)).1 = Exn e -> truthy e = false ->
  waitFor_deliver ftab Tick c w = (set_error e c, after_tester ftab k w).
Proof.
  intros Ht Hs Hi Hv Ho He.
  unfold waitFor_deliver. destruct (w_interval c); [|congruence].
  rewrite_tick k c w Ht Hs; rewrite Ho. cbn [value set_error error].
  now rewrite Hv, He.
Qed.

(** The deadline callback only records the timeout error. *)
Lemma waitFor_deliver_deadline c w d :
  w_deadline c = Some d ->
  waitFor_deliver ftab Deadline c w =
  (WaitForCall (w_promise c) (tester c) (stopped c) (Error "timeout") (value c)
     (w_interval c) None, w).
Proof. intros H. unfold waitFor_deliver. now rewrite H. Qed.

(** With a truthy error recorded, the next tick of a tester that returns
    (whatever it returns) rejects the future with the recorded error, and
    the interval is cleared. *)
Lemma waitFor_tick_error_recorded k c w v :
  tester c = VFun k -> stopped c = false -> w_interval c <> None ->
  truthy (error c) = true ->
  cells w !! w_promise c = Some None ->
  outcome (ftab k VUndef [] (heap w)).1 = Ok v ->
  let c' := (waitFor_deliver ftab Tick c w).1 in
  let w' := (waitFor_deliver ftab Tick c w).2 in
  cell w' (w_promise c) = Some (Rejects (error c)) /\
  stopped c' = true /\ w_interval c' = None /\
  trace w' = trace w ++ [ECall k VUndef []].
Proof.
  intros Ht Hs Hi He Hp Ho c' w'. subst c' w'.
  unfold waitFor_deliver. destruct (w_interval c); [|congruence].
  rewrite_tick k c w Ht Hs; rewrite Ho. cbn [value set_value error].
  rewrite He, orb_true_r. cbn [fst snd].
  destruct (after_tester_frame k w) as (Hc & Htr & _).
  split; [apply cell_settle_pending; now rewrite Hc|].
  split; [reflexivity|]. split; [reflexivity|].
  destruct (settle_frame (after_tester ftab k w) (w_promise c) (Rejects (error c)))
    as (_ & -> & _). exact Htr.
Qed.

(** Once the deadline callback has run, the next tick of a tester that
    returns (whatever it returns) rejects the future with the timeout
    error, and the interval is cleared. *)
Lemma waitFor_tick_after_deadline k c w v :
  tester c = VFun k -> stopped c = false -> w_interval c <> None ->
  w_deadline c <> None ->
  cells w !! w_promise c = Some None ->
  outcome (ftab k VUndef [] (heap w)).1 = Ok v ->
  let c' := (waitFor_run ftab [Deadline; Tick] c w).1 in
  let w' := (waitFor_run ftab [Deadline; Tick] c w).2 in
  cell w' (w_promise c) = Some (Rejects (Error "timeout")) /\
  stopped c' = true /\ w_interval c' = None /\
  trace w' = trace w ++ [ECall k VUndef []].
Proof.
  intros Ht Hs Hi Hd Hp Ho.
  destruct (w_deadline c) as [d|] eqn:Ed; [|congruence].
  cbn [waitFor_run]. rewrite (waitFor_deliver_deadline c w d Ed).
  set (c1 := WaitForCall _ _ _ _ _ _ _).
  destruct (waitFor_deliver ftab Tick c1 w) as [c2 w2] eqn:E2.
  pose proof (waitFor_tick_error_recorded k c1 w v Ht Hs Hi eq_refl Hp Ho) as H.
  cbv zeta in H. rewrite E2 in H. exact H.
Qed.

(** After settlement the interval is cleared: no event reaches the tester
    or changes anything. *)
Lemma waitFor_stopped_is_final evs : forall c w,
  w_interval c = None -> (waitFor_run ftab evs c w).2 = w.
Proof.
  induction evs as [|ev evs IH]; intros c w Hi; [reflexivity|].
  cbn [waitFor_run]. destruct ev; cbn [waitFor_deliver].
  - rewrite Hi. now apply IH.
  - destruct (w_deadline c); cbn [waitFor_deadline ret]; now apply IH.
Qed.

(** A tester that throws a falsy value whenever it is called is polled
    for ever: after any number of ticks the future is unchanged, the
    interval still set, and every tick called the tester. *)
Lemma waitFor_falsy_thrower k n : forall c w,
  tester c = VFun k -> stopped c = false -> w_interval c <> None ->
  truthy (value c) = false ->
  (forall h, exists e, outcome (ftab k VUndef [] h).1 = Exn e /\ truthy e = false) ->
  let c' := (waitFor_run ftab (repeat Tick n) c w).1 in
  let w' := (waitFor_run ftab (repeat Tick n) c w).2 in
  cells w' = cells w /\ stopped c' = false /\ w_interval c' = w_interval c /\
  trace w' = trace w ++ repeat (ECall k VUndef []) n.
Proof.
  induction n as [|n IH]; intros c w Ht Hs Hi Hv Hk.
  - simpl. rewrite app_nil_r. auto.
  - destruct (Hk (heap w)) as (e & Ho & He).
    cbn [repeat waitFor_run].
    rewrite (waitFor_tick_throws_falsy k c w e Ht Hs Hi Hv Ho He).
    destruct (IH (set_error e c) (after_tester ftab k w) Ht Hs Hi Hv Hk)
      as (Hc & Hs' & Hi' & Htr).
    destruct (after_tester_frame k w) as (Hc0 & Ht0 & _).
    rewrite Hc, Hc0, Htr, Ht0, <- app_assoc. auto.
Qed.

End WaitForProofs.

(** ** promise_finally *)

Section FinallyProofs.

Variable ftab : fid -> jsfun.

Lemma get_stack_defined err w :
  nullish err = false -> exists st, get_stack err w = (Ok st, w).
Proof.
  destruct err; simpl; try discriminate; intros _; eauto.
  destruct (heap w !! l) as [[|m]|]; eauto.
Qed.

(** A cleanup that returns, or throws something other than [undefined]
    and [null], is called once and the wrapper carries on. *)
Lemma run_finallyFn_once k w :
  (forall e, outcome (ftab k VUndef [] (heap w)).1 = Exn e -> nullish e = false) ->
  exists r w',
    run_finallyFn ftab (VFun k) w = (Ok r, w') /\
    trace w' = trace w ++ [ECall k VUndef []].
Proof.
  intros Hk. unfold run_finallyFn, try_catch. rewrite call_tester.
  destruct (after_tester_frame ftab k w) as (_ & Ht & _).
  destruct (outcome (ftab k VUndef [] (heap w)).1) as [v|e]; [eauto|].
  destruct (get_stack_defined e (after_tester ftab k w) (Hk e eq_refl)) as (st & Hst).
  unfold bind. rewrite Hst. unfold console_error, modify.
  eexists _, _. split; [reflexivity|]. exact Ht.
Qed.

(** With such a cleanup the wrapper settles as the input does, and calls
    the cleanup once if the input settles. *)
Lemma promise_finally_keeps_outcome promise k w :
  (forall e, outcome (ftab k VUndef [] (heap w)).1 = Exn e -> nullish e = false) ->
  exists w',
    promise_finally ftab promise (VFun k) w = (Ok (resolution promise), w') /\
    (resolution promise <> NeverSettles -> trace w' = trace w ++ [ECall k VUndef []]).
Proof.
  intros Hk. destruct (run_finallyFn_once k w Hk) as (r & w' & Hrun & Ht).
  unfold promise_finally, bind, then_, catch_, Promise_resolve.
  destruct (resolution promise) as [v|e|] eqn:E.
  - rewrite Hrun. unfold ret. rewrite (resolution_fulfils_plain _ _ E). eauto.
  - rewrite Hrun. unfold throw. eauto.
  - eexists. split; [reflexivity|]. congruence.
Qed.

End FinallyProofs.

(** ** The claims on concrete calls *)

(** Witness of C1: the example in the source of [chain]. *)
Lemma chain_runs_steps_in_order_witness :
  heap world_steps !! 1%positive = Some (OArr (map VFun [0; 1; 2]%nat)) /\
  exists w',
    chain demo (VObj 1%positive) world_steps = (Ok 0%nat, w') /\
    cell w' 0%nat = Some (Fulfills (VObj 2%positive)) /\
    trace w' = [ECall 0 VUndef [VUndef; VObj 2%positive];
                ECall 1 VUndef [VNum 23; VObj 2%positive];
                ECall 2 VUndef [VNum 25; VObj 2%positive]] /\
    get_prop 2%positive "first" (heap w') = VNum 23 /\
    get_prop 2%positive "second" (heap w') = VNum 25.
Proof.
  split; [reflexivity|].
  destruct (chain_runs_steps_in_order demo [0; 1; 2]%nat 1%positive world_steps eq_refl)
    as (w' & Hrun & _ & _ & Ht & Hc & Hh & _).
  exists w'. split; [exact Hrun|]. split; [exact Hc|]. split; [exact Ht|].
  rewrite Hh. split; reflexivity.
Defined.

(** Witness of C2: [chain([() => { throw new Error("x"); }, () => 99])]. *)
Lemma chain_rejects_at_first_failure_witness :
  heap world_failing !! 1%positive = Some (OArr (map VFun ([] ++ 3 :: [4])%nat)) /\
  exists w',
    chain demo (VObj 1%positive) world_failing = (Ok 0%nat, w') /\
    cell w' 0%nat = Some (Rejects (Error "x")) /\
    trace w' = [ECall 3 VUndef [VUndef; VObj 2%positive]].
Proof.
  split; [reflexivity|].
  destruct (chain_rejects_at_first_failure demo [] 3%nat [4%nat] 1%positive
              world_failing [] VUndef _ (Error "x") eq_refl eq_refl
              (or_introl eq_refl))
    as (w' & Hrun & Hc & Ht & _).
  exists w'. split; [exact Hrun|]. split; [exact Hc|exact Ht].
Defined.

(** Witness of C7: [convertCallbackFun((a, cb) => cb(null, a * 2))] called
    with 3 fulfils with 6. *)
Lemma convertCallbackFun_adapts_witness :
  later_wf world0 /\
  exists w',
    apply_adapted demo (PromiseGenerator false (VFun 5%nat)) VUndef [VNum 3] world0
      = (Ok 0%nat, w') /\
    trace w' = [ECall 5 VUndef [VNum 3; VCallback false 0]] /\
    cell (drain w') 0%nat = Some (Fulfills (VNum 6)).
Proof.
  assert (Hwf : later_wf world0) by constructor.
  split; [exact Hwf|].
  destruct (convertCallbackFun_adapts demo 5%nat VUndef [VNum 3] world0 Hwf)
    as (_ & w' & Hrun & _ & Ht & _ & Hc).
  exists w'. split; [exact Hrun|]. split; [exact Ht|].
  destruct (Hc [VNull; VNum 6] eq_refl) as (_ & _ & H). exact (H eq_refl eq_refl).
Defined.

(** Witness of C8: [convertCallbackFunWithManyArgs(cb => cb(null, 1, 2, 3))]
    fulfils with [[1, 2, 3]]. *)
Lemma convertCallbackFunWithManyArgs_adapts_witness :
  later_wf world0 /\
  exists w',
    apply_adapted demo (PromiseGenerator true (VFun 6%nat)) VUndef [] world0
      = (Ok 0%nat, w') /\
    cell (drain w') 0%nat = Some (Fulfills (VArr [VNum 1; VNum 2; VNum 3])).
Proof.
  assert (Hwf : later_wf world0) by constructor.
  split; [exact Hwf|].
  destruct (convertCallbackFunWithManyArgs_adapts demo 6%nat VUndef [] world0 Hwf)
    as (_ & w' & Hrun & _ & _ & Hc & _).
  exists w'. split; [exact Hrun|].
  destruct (Hc VNull [VNum 1; VNum 2; VNum 3] eq_refl) as (_ & H). exact (H eq_refl).
Defined.

(** C6, on the code.  The claim is that the wrapper runs the cleanup once
    and keeps the outcome of the input also when the cleanup throws.  With
    the cleanup [() => { throw undefined }] the source does neither: the
    handler of the inner [try] reads [err.stack] of [undefined], which
    throws a TypeError out of the reaction.  On a future fulfilled with 5
    the returned future rejects with that TypeError and the cleanup has
    run twice (once in each reaction); on a future rejected with
    [Error("e")] it rejects with the TypeError instead of [Error("e")];
    nothing is logged. *)
Theorem promise_finally_cleanup_throws_undefined :
  let on_fulfilled := promise_finally demo (VFuture (Fulfills (VNum 5))) (VFun 7%nat) world0 in
  let on_rejected := promise_finally demo (VFuture (Rejects (Error "e"))) (VFun 7%nat) world0 in
  on_fulfilled.1
    = Ok (Rejects (TypeError "Cannot read properties of undefined (reading 'stack')")) /\
  trace on_fulfilled.2 = [ECall 7 VUndef []; ECall 7 VUndef []] /\
  console on_fulfilled.2 = [] /\
  on_rejected.1
    = Ok (Rejects (TypeError "Cannot read properties of undefined (reading 'stack')")) /\
  trace on_rejected.2 = [ECall 7 VUndef []].
Proof. vm_compute. repeat split. Qed.

(** C5, on the code.  The claim is that a tester invocation that throws
    [e] rejects the future with [e] and stops the polling.  With the
    tester [() => { throw null }] and no deadline the source stores the
    thrown [null] in [error] and then tests [value || error], which is
    falsy: after any number [n] of ticks the future is still pending, the
    interval is still set, and the tester has been called [n] times. *)
Theorem waitFor_ignores_falsy_throw n :
  exists c w,
    waitFor (VFun 8%nat) VUndef world0 = (Ok c, w) /\
    tester c = VFun 8%nat /\ w_deadline c = None /\
    waitFor_schedule c true n = repeat Tick n /\
    let c' := (waitFor_run demo (repeat Tick n) c w).1 in
    let w' := (waitFor_run demo (repeat Tick n) c w).2 in
    cell w' (w_promise c) = None /\ stopped c' = false /\
    w_interval c' = Some 10 /\
    trace w' = repeat (ECall 8 VUndef []) n.
Proof.
  eexists _, _. split; [reflexivity|]. split; [reflexivity|].
  split; [reflexivity|]. split; [reflexivity|].
  match goal with
  | |- context [waitFor_run demo _ ?c ?w] =>
      destruct (waitFor_falsy_thrower demo 8%nat n c w eq_refl eq_refl
                  ltac:(discriminate) eq_refl
                  (fun h => ex_intro _ VNull (conj eq_refl eq_refl)))
        as (Hc & Hs & Hi & Ht)
  end.
  cbv zeta. split; [unfold cell; rewrite Hc; reflexivity|].
  split; [exact Hs|]. split; [exact Hi|exact Ht].
Qed.

(** C3, on the code.  The claim is that when the deadline elapses before
    the tester has returned a truthy value or thrown, the future rejects
    with a timeout error.  With [waitFor(5, tester)] and the tester
    [() => { throw new Error("boom") }] the deadline (5 ms) comes before
    the first tick (10 ms), so it elapses before the tester has run at
    all.  The deadline callback rejects nothing: after it the future is
    pending and the interval set.  The tick after it calls the tester, and
    the future rejects with [Error("boom")]; the timeout error is lost,
    whatever the host delivers afterwards. *)
Theorem waitFor_timeout_error_replaced rest :
  exists c w,
    waitFor (VNum 5) (VFun 10%nat) world0 = (Ok c, w) /\
    waitFor_schedule c true 1 = [Deadline; Tick] /\
    trace (waitFor_run demo [Deadline] c w).2 = [] /\
    cell (waitFor_run demo [Deadline] c w).2 (w_promise c) = None /\
    w_interval (waitFor_run demo [Deadline] c w).1 = Some 10 /\
    error (waitFor_run demo [Deadline] c w).1 = Error "timeout" /\
    trace (waitFor_run demo [Deadline; Tick] c w).2 = [ECall 10 VUndef []] /\
    cell (waitFor_run demo (Deadline :: Tick :: rest) c w).2 (w_promise c)
      = Some (Rejects (Error "boom")) /\
    cell (waitFor_run demo (Deadline :: Tick :: rest) c w).2 (w_promise c)
      <> Some (Rejects (Error "timeout")).
Proof.
  eexists _, _. split; [reflexivity|]. split; [reflexivity|].
  split; [reflexivity|]. split; [reflexivity|]. split; [reflexivity|].
  split; [reflexivity|]. split; [reflexivity|].
  assert (H : forall c0 w0,
            waitFor_run demo (Deadline :: Tick :: rest) c0 w0
            = waitFor_run demo rest (waitFor_run demo [Deadline; Tick] c0 w0).1
                (waitFor_run demo [Deadline; Tick] c0 w0).2).
  { intros c0 w0. cbn [waitFor_run].
    destruct (waitFor_deliver demo Deadline c0 w0) as [c1 w1].
    destruct (waitFor_deliver demo Tick c1 w1) as [c2 w2]. reflexivity. }
  rewrite H. rewrite waitFor_stopped_is_final by reflexivity.
  split; [reflexivity|]. vm_compute. discriminate.
Qed.

(** The same deadline with the tester [() => { throw null }]: the thrown
    [null] replaces the timeout error and is falsy; after any number of
    ticks the future is still pending, the interval still set, and the
    tester called at every tick. *)
Lemma waitFor_deadline_then_falsy_thrower n :
  exists c w,
    waitFor (VNum 5) (VFun 8%nat) world0 = (Ok c, w) /\
    waitFor_schedule c true (S n) = Deadline :: repeat Tick (S n) /\
    let c' := (waitFor_run demo (Deadline :: repeat Tick (S n)) c w).1 in
    let w' := (waitFor_run demo (Deadline :: repeat Tick (S n)) c w).2 in
    cell w' (w_promise c) = None /\ stopped c' = false /\
    w_interval c' = Some 10 /\
    trace w' = repeat (ECall 8 VUndef []) (S n).
Proof.
  eexists _, _. split; [reflexivity|]. split; [reflexivity|].
  cbn [waitFor_run]. erewrite waitFor_deliver_deadline by reflexivity.
  match goal with
  | |- context [waitFor_run demo _ ?c ?w] =>
      destruct (waitFor_falsy_thrower demo 8%nat (S n) c w eq_refl eq_refl
                  ltac:(discriminate) eq_refl
                  (fun h => ex_intro _ VNull (conj eq_refl eq_refl)))
        as (Hc & Hs & Hi & Ht)
  end.
  cbv zeta. split; [unfold cell; rewrite Hc; reflexivity|].
  split; [exact Hs|]. split; [exact Hi|exact Ht].
Qed.

(** C10, on the code.  The claim is that after the deadline the future
    always rejects at the next tick, with the error of the tester if it
    throws there.  With [waitFor(5, tester)] and a tester that throws
    [null] at its first call and returns 42 from then on, the tick after
    the deadline leaves the future pending and [error] holding [null], the
    timeout error being lost; the tick after that fulfils the future with
    42. *)
Theorem waitFor_deadline_forgotten_after_falsy_throw :
  exists c w,
    waitFor (VNum 5) (VFun 9%nat) world_counter = (Ok c, w) /\
    waitFor_schedule c true 2 = [Deadline; Tick; Tick] /\
    cell (waitFor_run demo [Deadline; Tick] c w).2 (w_promise c) = None /\
    error (waitFor_run demo [Deadline; Tick] c w).1 = VNull /\
    w_interval (waitFor_run demo [Deadline; Tick] c w).1 = Some 10 /\
    trace (waitFor_run demo [Deadline; Tick] c w).2 = [ECall 9 VUndef []] /\
    cell (waitFor_run demo [Deadline; Tick; Tick] c w).2 (w_promise c)
      = Some (Fulfills (VNum 42)).
Proof.
  eexists _, _. split; [reflexivity|]. vm_compute. repeat split.
Qed.

(** ** The examples of the spec (section 8) *)

(** [timeout(10, delay(1000, "late"))]: the timer fires first. *)
Example timeout_late :
  exists c w,
    timeout (VNum 10) (VFuture (Fulfills (VStr "late"))) world0 = (Ok c, w) /\
    cell (timeout_run [TimerFires; InputFulfils (VStr "late")] c w).2 (t_promise c)
      = Some (Rejects (Error "Promise timed out")).
Proof. eexists _, _. split; reflexivity. Qed.

(** [timeout(1000, delay(10, "early"))]: the input settles first. *)
Example timeout_early :
  exists c w,
    timeout (VNum 1000) (VFuture (Fulfills (VStr "early"))) world0 = (Ok c, w) /\
    cell (timeout_run [InputFulfils (VStr "early"); TimerFires] c w).2 (t_promise c)
      = Some (Fulfills (VStr "early")).
Proof. eexists _, _. split; reflexivity. Qed.

(** [waitFor(tester)] with a tester that returns [false] twice, then 42:
    fulfilled with 42 at the third tick, and the tester is not called at
    the ticks after it. *)
Example waitFor_third_time :
  exists c w,
    waitFor (VFun 12%nat) VUndef world_counter = (Ok c, w) /\
    cell (waitFor_run demo (repeat Tick 5) c w).2 (w_promise c)
      = Some (Fulfills (VNum 42)) /\
    trace (waitFor_run demo (repeat Tick 5) c w).2
      = repeat (ECall 12 VUndef []) 3.
Proof. eexists _, _. split; [reflexivity|]. vm_compute. split; reflexivity. Qed.

(** [promiseFinally(Future.resolve(5), cleanupFn)] and
    [promiseFinally(Future.reject(err), cleanupFn)] with a cleanup that
    returns: the outcome is kept and the cleanup called once. *)
Example promise_finally_plain_cleanup :
  (promise_finally demo (VFuture (Fulfills (VNum 5))) (VFun 11%nat) world0).1
    = Ok (Fulfills (VNum 5)) /\
  trace (promise_finally demo (VFuture (Fulfills (VNum 5))) (VFun 11%nat) world0).2
    = [ECall 11 VUndef []] /\
  (promise_finally demo (VFuture (Rejects (Error "err"))) (VFun 11%nat) world0).1
    = Ok (Rejects (Error "err")) /\
  trace (promise_finally demo (VFuture (Rejects (Error "err"))) (VFun 11%nat) world0).2
    = [ECall 11 VUndef []].
Proof. vm_compute. repeat split. Qed.

(** [convertCallbackFun(fn)] where [fn] calls [cb(new Error("bad"))]: the
    adapted call rejects with that error. *)
Example convertCallbackFun_bad :
  cell (drain (apply_adapted demo (PromiseGenerator false (VFun 14%nat)) VUndef
                 [VNum 3] world0).2) 0%nat
  = Some (Rejects (Error "bad")).
Proof. reflexivity. Qed.

(** A falsy entry in the array ends the chain early: [chain([() => 99,
    null, () => { throw new Error("x") }])] fulfils with 99 and never calls
    the third function. *)
Example chain_falsy_entry :
  cell (chain demo (VArr [VFun 4%nat; VNull; VFun 3%nat]) world0).2 0%nat
    = Some (Fulfills (VNum 99)) /\
  map called (trace (chain demo (VArr [VFun 4%nat; VNull; VFun 3%nat]) world0).2)
    = [4%nat].
Proof. vm_compute. split; reflexivity. Qed.

(** The copy is private: a first step that empties the caller's array does
    not keep the second step from running; the array is empty afterwards
    because the step emptied it. *)
Example chain_copy_is_private :
  cell (chain demo (VObj 1%positive) world_self_clearing).2 0%nat
    = Some (Fulfills (VNum 99)) /\
  map called (trace (chain demo (VObj 1%positive) world_self_clearing).2)
    = [15; 4]%nat /\
  heap (chain demo (VObj 1%positive) world_self_clearing).2 !! 1%positive
    = Some (OArr []).
Proof. vm_compute. repeat split. Qed.

(** * Further properties of the module *)

(** ** chain: entries that are not steps, steps that never settle, and
    what a chain leaves alone *)

Section ChainEdges.

Variable ftab : fid -> jsfun.

(** [_chainResolveNext] never throws, whatever the array holds. *)
Lemma chainResolveNext_returns l : forall prev akku p w,
  (_chainResolveNext ftab l prev akku p w).1 = Ok VUndef.
Proof.
  destruct l as [|next l]; intros prev akku p w; [reflexivity|].
  cbn [_chainResolveNext]. destruct (negb (truthy next)); [reflexivity|].
  unfold try_catch, bind at 1.
  destruct (call ftab next VUndef [prev; akku] w) as [[x|e] w1]; [|reflexivity].
  unfold bind at 1.
  destruct (then_ _ _ w1) as [[r|e] w2] eqn:E1.
  - unfold bind. destruct (catch_ r _ w2) as [[r2|e2] w3] eqn:E2; [reflexivity|].
    unfold catch_, reject, modify in E2. destruct r; discriminate.
  - unfold then_ in E1. destruct (Promise_resolve x); try discriminate.
    destruct (_chainResolveNext ftab l v akku p w1) as [[?|?] ?]; discriminate.
Qed.

(** Steps that all fulfil hand over to whatever follows them in the
    array. *)
Lemma chainResolveNext_prefix pre : forall rest prev a p w tr last h1,
  chain_spec ftab pre prev (VObj a) (heap w) = (tr, Some (Fulfills last), h1) ->
  exists w1,
    heap w1 = h1 /\ cells w1 = cells w /\ trace w1 = trace w ++ tr /\
    console w1 = console w /\
    (_chainResolveNext ftab (map VFun pre ++ rest) prev (VObj a) p w).2 =
    (_chainResolveNext ftab rest last (VObj a) p w1).2.
Proof.
  induction pre as [|k pre IH]; intros rest prev a p w tr last h1 H.
  - simpl in H. injection H as <- <- <-. exists w.
    rewrite app_nil_r. repeat split; reflexivity.
  - simpl in H.
    destruct (ftab k VUndef [prev; VObj a] (heap w)) as [b h0] eqn:E.
    destruct (outcome b) as [x|err] eqn:Eo; [|discriminate].
    destruct (resolution x) as [result|err|] eqn:Ex; try discriminate.
    destruct (chain_spec ftab pre result (VObj a) h0) as [[tr0 s0] h2] eqn:E2.
    injection H as <- -> <-.
    cbn [map app _chainResolveNext truthy negb].
    unfold try_catch, bind at 1. rewrite call_step, E. cbn [fst snd]. rewrite Eo.
    set (w0 := World h0 (cells w) _ (console w) _).
    destruct (IH rest result a p w0 tr0 last h2 E2) as (w1 & Hh & Hc & Ht & Hco & Hrun).
    exists w1. split; [exact Hh|]. split; [exact Hc|]. split.
    { rewrite Ht. subst w0. simpl. now rewrite <- app_assoc. }
    split; [exact Hco|].
    rewrite <- Hrun. unfold bind at 1. unfold then_, Promise_resolve. rewrite Ex.
    pose proof (chainResolveNext_returns (map VFun pre ++ rest) result (VObj a) p w0) as Hr.
    destruct (_chainResolveNext ftab (map VFun pre ++ rest) result (VObj a) p w0)
      as [r w2]. cbn [fst snd] in *. subst r. reflexivity.
Qed.

(** The call itself on an array in the heap, whatever it holds. *)
Lemma chain_on_array l xs w :
  heap w !! l = Some (OArr xs) ->
  let a := fresh (dom (heap w)) in
  let p := length (cells w) in
  let w0 := set_heap (<[a := ORec ∅]> (heap w)) (set_cells (cells w ++ [None]) w) in
  chain ftab (VObj l) w = (Ok p, (_chainResolveNext ftab xs VUndef (VObj a) p w0).2) /\
  cells w0 !! p = Some None.
Proof.
  intros Hl a p w0. split.
  - unfold chain, new_Promise, bind, slice, new_object.
    cbv beta. change (heap (set_cells (cells w ++ [None]) w)) with (heap w).
    rewrite Hl. cbv beta iota.
    change (heap (set_cells (cells w ++ [None]) w)) with (heap w).
    fold a. fold p. fold w0.
    pose proof (chainResolveNext_returns xs VUndef (VObj a) p w0) as Hr.
    destruct (_chainResolveNext ftab xs VUndef (VObj a) p w0) as [r w1].
    cbn [fst snd] in *. now subst r.
  - subst w0 p. simpl. rewrite lookup_app_r by lia. now rewrite Nat.sub_diag.
Qed.

Lemma chain_spec_last_plain pre : forall prev akku h tr last h1,
  resolution prev = Fulfills prev ->
  chain_spec ftab pre prev akku h = (tr, Some (Fulfills last), h1) ->
  resolution last = Fulfills last.
Proof.
  induction pre as [|k pre IH]; intros prev akku h tr last h1 Hp H; simpl in H.
  - now injection H as _ <- _.
  - destruct (ftab k VUndef [prev; akku] h) as [b h0].
    destruct (outcome b) as [x|err]; [|discriminate].
    destruct (resolution x) as [result|err|] eqn:Ex; try discriminate.
    destruct (chain_spec ftab pre result akku h0) as [[tr0 s0] h2] eqn:E.
    injection H as <- -> <-.
    eapply IH; [|exact E]. eapply resolution_fulfils_plain; eassumption.
Qed.

(** A chain whose first entries are steps that all fulfil: the state in
    which the entry after them is taken. *)
Lemma chain_after_prefix pre rest l w tr last h1 :
  heap w !! l = Some (OArr (map VFun pre ++ rest)) ->
  let a := fresh (dom (heap w)) in
  let p := length (cells w) in
  chain_spec ftab pre VUndef (VObj a) (<[a := ORec ∅]> (heap w))
    = (tr, Some (Fulfills last), h1) ->
  exists w1,
    heap w1 = h1 /\ cells w1 !! p = Some None /\ trace w1 = trace w ++ tr /\
    console w1 = console w /\ resolution last = Fulfills last /\
    map called tr = pre /\
    chain ftab (VObj l) w = (Ok p, (_chainResolveNext ftab rest last (VObj a) p w1).2).
Proof.
  intros Hl a p Hpre.
  destruct (chain_on_array l _ w Hl) as [Hrun Hp]. fold a p in Hrun, Hp.
  set (w0 := set_heap _ _) in *.
  destruct (chainResolveNext_prefix pre rest VUndef a p w0 tr last h1 Hpre)
    as (w1 & Hh & Hc & Ht & Hco & Heq).
  exists w1. split; [exact Hh|]. split; [now rewrite Hc|]. split; [exact Ht|].
  split; [exact Hco|]. split; [eapply chain_spec_last_plain; [|exact Hpre]; reflexivity|].
  split; [eapply chain_spec_fulfils_calls; exact Hpre|].
  now rewrite Hrun, Heq.
Qed.

(** X1. An entry of the array that is falsy ([null], [undefined], 0, ...)
    ends the chain as if the array ended there: if the steps before it all
    fulfil, the future fulfils with the last of their results
    ([undefined] if there is none), and nothing after the falsy entry is
    ever called. *)
Theorem chain_stops_at_falsy_entry pre v post l w tr last h1 :
  heap w !! l = Some (OArr (map VFun pre ++ v :: post)) ->
  truthy v = false ->
  let a := fresh (dom (heap w)) in
  let p := length (cells w) in
  chain_spec ftab pre VUndef (VObj a) (<[a := ORec ∅]> (heap w))
    = (tr, Some (Fulfills last), h1) ->
  exists w',
    chain ftab (VObj l) w = (Ok p, w') /\
    cell w' p = Some (Fulfills last) /\
    trace w' = trace w ++ tr /\ map called tr = pre /\ heap w' = h1.
Proof.
  intros Hl Hv a p Hpre.
  destruct (chain_after_prefix pre (v :: post) l w tr last h1 Hl Hpre)
    as (w1 & Hh & Hp & Ht & _ & Hlast & Hcalls & Hrun).
  fold a p in Hp, Hrun. eexists. split; [exact Hrun|].
  cbn [_chainResolveNext]. rewrite Hv. cbn [negb].
  unfold resolve, modify. cbn [snd].
  destruct (settle_frame w1 p (resolution last)) as (-> & -> & _).
  rewrite cell_settle_pending, Hlast by assumption. auto.
Qed.

(** X2. An entry that is truthy but not a function (a number, a string, an
    object) makes the chain reject with the TypeError of the failed call:
    if the steps before it all fulfil, the future rejects with that
    TypeError and nothing after the entry is ever called. *)
Theorem chain_rejects_at_non_function_entry pre v post l w tr last h1 :
  heap w !! l = Some (OArr (map VFun pre ++ v :: post)) ->
  truthy v = true -> is_function v = false ->
  let a := fresh (dom (heap w)) in
  let p := length (cells w) in
  chain_spec ftab pre VUndef (VObj a) (<[a := ORec ∅]> (heap w))
    = (tr, Some (Fulfills last), h1) ->
  exists w',
    chain ftab (VObj l) w = (Ok p, w') /\
    cell w' p = Some (Rejects (TypeError "not a function")) /\
    trace w' = trace w ++ tr /\ map called tr = pre /\ heap w' = h1.
Proof.
  intros Hl Hv Hf a p Hpre.
  destruct (chain_after_prefix pre (v :: post) l w tr last h1 Hl Hpre)
    as (w1 & Hh & Hp & Ht & _ & Hlast & Hcalls & Hrun).
  fold a p in Hp, Hrun. eexists. split; [exact Hrun|].
  assert (Hcall : call ftab v VUndef [last; VObj a] w1
                  = (Exn (TypeError "not a function"), w1)).
  { destruct v; try discriminate; reflexivity. }
  assert (Hnext : (_chainResolveNext ftab (v :: post) last (VObj a) p w1).2
                  = settle p (Rejects (TypeError "not a function")) w1).
  { cbn [_chainResolveNext]. rewrite Hv. cbn [negb].
    unfold try_catch, bind at 1. now rewrite Hcall. }
  rewrite Hnext.
  destruct (settle_frame w1 p (Rejects (TypeError "not a function"))) as (-> & -> & _).
  rewrite cell_settle_pending by assumption. auto.
Qed.

(** X3. A step that returns a future that never settles stalls the chain:
    if the steps before it all fulfil, the future of the chain stays
    pending for ever, and no step after it is ever called. *)
Theorem chain_stalls_at_pending_step pre k post l w tr last h1 x :
  heap w !! l = Some (OArr (map VFun (pre ++ k :: post))) ->
  let a := fresh (dom (heap w)) in
  let p := length (cells w) in
  chain_spec ftab pre VUndef (VObj a) (<[a := ORec ∅]> (heap w))
    = (tr, Some (Fulfills last), h1) ->
  outcome (ftab k VUndef [last; VObj a] h1).1 = Ok x ->
  resolution x = NeverSettles ->
  exists w',
    chain ftab (VObj l) w = (Ok p, w') /\
    cell w' p = None /\
    trace w' = trace w ++ tr ++ [ECall k VUndef [last; VObj a]] /\
    map called (tr ++ [ECall k VUndef [last; VObj a]]) = pre ++ [k].
Proof.
  intros Hl a p Hpre Ho Hx.
  destruct (chain_unfold ftab l _ w Hl) as (w' & Hrun & Ht & Hh & Hc).
  fold a in Ht, Hh, Hc. fold p in Hrun, Hc.
  rewrite (chain_spec_app ftab pre (k :: post) _ _ _ _ _ _ Hpre) in Ht, Hc.
  assert (Hstep : (chain_spec ftab (k :: post) last (VObj a) h1).1 =
                  ([ECall k VUndef [last; VObj a]], None)).
  { simpl. destruct (ftab k VUndef [last; VObj a] h1) as [b h2]. simpl in Ho.
    now rewrite Ho, Hx. }
  destruct (chain_spec ftab (k :: post) last (VObj a) h1) as [[tr2 s2] h2].
  injection Hstep as -> ->. cbn [fst snd] in Ht, Hc.
  exists w'. split; [exact Hrun|]. split; [exact Hc|]. split; [exact Ht|].
  rewrite map_app. simpl. f_equal. eapply chain_spec_fulfils_calls; eassumption.
Qed.

(** X4. Called with something that has no [slice] (not an array, and not
    a string, whose [slice] would succeed), [chain] does not throw: it
    returns a future that rejects with the TypeError of the failed
    [slice]; no function is called and the heap is as before. *)
Theorem chain_rejects_non_array v w :
  is_array v (heap w) = false -> (forall s, v <> VStr s) ->
  let p := length (cells w) in
  exists w',
    chain ftab v w = (Ok p, w') /\
    cell w' p = Some (Rejects (TypeError "slice is not a function")) /\
    trace w' = trace w /\ heap w' = heap w.
Proof.
  intros Hv _ p.
  set (w0 := set_cells (cells w ++ [None]) w).
  assert (Hp : cells w0 !! p = Some None).
  { subst w0 p. simpl. rewrite lookup_app_r by lia. now rewrite Nat.sub_diag. }
  assert (Hs : slice v w0 = (Exn (TypeError "slice is not a function"), w0)).
  { unfold slice, is_array in *. destruct v; try reflexivity; try discriminate.
    change (heap w0) with (heap w). destruct (heap w !! l) as [[|]|]; try reflexivity.
    discriminate. }
  exists (settle p (Rejects (TypeError "slice is not a function")) w0).
  split.
  - unfold chain, new_Promise, bind. fold p. fold w0. now rewrite Hs.
  - destruct (settle_frame w0 p (Rejects (TypeError "slice is not a function")))
      as (-> & -> & _).
    rewrite cell_settle_pending by assumption. auto.
Qed.



End ChainEdges.

(** ** promise_finally: cleanups that throw, cleanups that are not
    functions *)

Section FinallyEdges.

Variable ftab : fid -> jsfun.




(** X7. A cleanup that is not a function does not disturb the outcome
    either: the failed call is caught and logged.  The wrapper settles as
    its input does, no function is called, and if the input settles one
    line is logged, which starts with
    "Error in promise finally: TypeError". *)
Theorem promise_finally_cleanup_not_a_function promise f w :
  is_function f = false ->
  exists w',
    promise_finally ftab promise f w = (Ok (resolution promise), w') /\
    trace w' = trace w /\ cells w' = cells w /\ heap w' = heap w /\
    (resolution promise = NeverSettles -> console w' = console w) /\
    (resolution promise <> NeverSettles ->
     exists rest,
       console w' = console w
                    ++ [VStr ("Error in promise finally: TypeError" ++ rest)]).
Proof.
  intros Hf.
  assert (Hrun : run_finallyFn ftab f w
                 = (Ok VUndef,
                    log_console (VStr "Error in promise finally: TypeError: not a function") w)).
  { unfold run_finallyFn, try_catch.
    assert (Hcall : call ftab f VUndef [] w = (Exn (TypeError "not a function"), w))
      by (destruct f; try discriminate; reflexivity).
    rewrite Hcall. reflexivity. }
  unfold promise_finally, bind, then_, catch_, Promise_resolve.
  destruct (resolution promise) as [v|e|] eqn:E.
  - rewrite Hrun. unfold ret. rewrite (resolution_fulfils_plain _ _ E).
    eexists. split; [reflexivity|]. cbn.
    repeat split; auto; [intros H; discriminate|].
    intros _. exists ": not a function". reflexivity.
  - rewrite Hrun. unfold throw.
    eexists. split; [reflexivity|]. cbn.
    repeat split; auto; [intros H; discriminate|].
    intros _. exists ": not a function". reflexivity.
  - exists w. split; [reflexivity|]. repeat split; auto. congruence.
Qed.

End FinallyEdges.

(** ** The adapters: functions that throw, never call back, or are not
    functions; calls one after the other *)

Section AdapterEdges.

Variable ftab : fid -> jsfun.

(** The world one adapted call leaves, written out. *)
Lemma promiseGenerator_world many k self args w :
  let p := length (cells w) in
  let cb := VCallback many p in
  let b := (ftab k self (args ++ [cb]) (heap w)).1 in
  let h := (ftab k self (args ++ [cb]) (heap w)).2 in
  let w1 := World h (cells w ++ [None]) (trace w ++ [ECall k self (args ++ [cb])])
              (console w) (later w) in
  let w2 := run_callbacks (map (fun a => (cb, a)) (cb_sync b)) w1 in
  let w3 := set_later (later w ++ map (fun a => (cb, a)) (cb_async b)) w2 in
  promiseGenerator ftab many (VFun k) self args w =
  (Ok p, match outcome b with
         | Ok _ => w3
         | Exn e => settle p (Rejects e) w3
         end) /\
  cells w1 !! p = Some None.
Proof.
  intros p cb b h w1 w2 w3. split.
  - unfold promiseGenerator, new_Promise, call. fold p. fold cb.
    change (heap (set_cells (cells w ++ [None]) w)) with (heap w).
    subst b h w3 w2 w1.
    destruct (ftab k self (args ++ [cb]) (heap w)) as [b h]. cbn [fst snd].
    rewrite last_last.
    match goal with
    | |- context [run_callbacks ?l ?w0] =>
        destruct (run_callbacks_frame l w0) as (_ & _ & _ & Hl & _)
    end.
    unfold set_heap, log_event, set_cells in *. cbn [heap cells trace console later] in *.
    rewrite Hl. destruct (outcome b); reflexivity.
  - subst w1 p. simpl. rewrite lookup_app_r by lia. now rewrite Nat.sub_diag.
Qed.

(** What a run of callback calls does to one cell depends on that cell
    only. *)
Lemma run_callbacks_local calls q : forall w1 w2,
  cells w1 !! q = cells w2 !! q ->
  cells (run_callbacks calls w1) !! q = cells (run_callbacks calls w2) !! q.
Proof.
  induction calls as [|[cb a] calls IH]; intros w1 w2 H; [exact H|].
  change (run_callbacks ((cb, a) :: calls) w1)
    with (run_callbacks calls (apply_callback cb a w1)).
  change (run_callbacks ((cb, a) :: calls) w2)
    with (run_callbacks calls (apply_callback cb a w2)).
  apply IH. destruct cb; try exact H.
  rewrite !apply_callback_settle.
  destruct (decide (p = q)) as [->|Hne].
  - unfold settle. rewrite <- H.
    destruct (cells w1 !! q) as [[c|]|] eqn:E; try congruence.
    simpl. rewrite !list_lookup_insert_eq; [reflexivity| |].
    + apply lookup_lt_Some with (x := None). now rewrite <- H.
    + eapply lookup_lt_Some; eassumption.
  - now rewrite !settle_other_lookup.
Qed.

Lemma run_callbacks_own many p calls : forall w q,
  q <> p ->
  cells (run_callbacks (map (fun a => (VCallback many p, a)) calls) w) !! q
  = cells w !! q.
Proof.
  induction calls as [|a calls IH]; intros w q Hq; [reflexivity|].
  cbn [map].
  change (run_callbacks ((VCallback many p, a) :: map (fun a => (VCallback many p, a)) calls) w)
    with (run_callbacks (map (fun a => (VCallback many p, a)) calls)
            (apply_callback (VCallback many p) a w)).
  rewrite IH by assumption. rewrite apply_callback_settle.
  apply settle_other_lookup. congruence.
Qed.

(** X8. A function that throws before it has called the completion
    callback rejects the future with what it threw, and calls of the
    callback it had deferred come too late to change that.  (Both
    adapters.) *)
Theorem adapted_function_throws many k self args w e :
  later_wf w ->
  let p := length (cells w) in
  let b := (ftab k self (args ++ [VCallback many p]) (heap w)).1 in
  cb_sync b = [] -> outcome b = Exn e ->
  exists w',
    promiseGenerator ftab many (VFun k) self args w = (Ok p, w') /\
    cell w' p = Some (Rejects e) /\
    cell (drain w') p = Some (Rejects e).
Proof.
  intros Hwf p b Hs Ho.
  destruct (promiseGenerator_world many k self args w) as [Hrun Hp].
  cbv zeta in Hrun, Hp. fold p in Hrun, Hp. fold b in Hrun.
  rewrite Ho, Hs in Hrun. cbn [map] in Hrun.
  eexists. split; [exact Hrun|].
  match goal with
  | |- cell (settle p _ ?w3) p = _ /\ _ =>
      assert (H3 : cell (settle p (Rejects e) w3) p = Some (Rejects e))
        by (apply cell_settle_pending; exact Hp)
  end.
  split; [exact H3|].
  unfold drain. apply run_callbacks_keeps. exact H3.
Qed.

(** X9. A function that returns without calling the completion callback,
    then or later, leaves the future pending for ever.  (Both
    adapters.) *)
Theorem adapted_function_never_calls_back many k self args w v :
  later_wf w ->
  let p := length (cells w) in
  let b := (ftab k self (args ++ [VCallback many p]) (heap w)).1 in
  cb_sync b = [] -> cb_async b = [] -> outcome b = Ok v ->
  exists w',
    promiseGenerator ftab many (VFun k) self args w = (Ok p, w') /\
    cell (drain w') p = None /\
    trace (drain w') = trace w ++ [ECall k self (args ++ [VCallback many p])].
Proof.
  intros Hwf p b Hs Ha Ho.
  destruct (promiseGenerator_world many k self args w) as [Hrun Hp].
  cbv zeta in Hrun, Hp. fold p in Hrun, Hp. fold b in Hrun.
  rewrite Ho, Hs, Ha in Hrun. cbn [map] in Hrun. rewrite app_nil_r in Hrun.
  eexists. split; [exact Hrun|].
  unfold drain. cbn [later set_later].
  split.
  - unfold cell. rewrite run_callbacks_below.
    + cbn. rewrite lookup_app_r by (subst p; lia). subst p. now rewrite Nat.sub_diag.
    + eapply Forall_impl; [exact Hwf|]. intros [c a0].
      unfold targets_below. cbn. subst p. destruct c; auto.
  - match goal with
    | |- trace (run_callbacks ?l ?w0) = _ =>
        destruct (run_callbacks_frame l w0) as (_ & -> & _)
    end. reflexivity.
Qed.

(** X10. Adapting a value that is not a function is not refused when the
    adapter is built; each call of the adapted function then returns a
    future rejected with the TypeError of the failed call, and calls
    nothing.  (Both adapters.) *)
Theorem adapted_non_function many func self args w :
  is_function func = false ->
  let p := length (cells w) in
  convertCallbackFun func w = (Ok (PromiseGenerator false func), w) /\
  convertCallbackFunWithManyArgs func w = (Ok (PromiseGenerator true func), w) /\
  exists w',
    apply_adapted ftab (PromiseGenerator many func) self args w = (Ok p, w') /\
    cell w' p = Some (Rejects (TypeError "not a function")) /\
    trace w' = trace w /\ heap w' = heap w /\ later w' = later w.
Proof.
  intros Hf p. split; [reflexivity|]. split; [reflexivity|].
  set (w0 := set_cells (cells w ++ [None]) w).
  assert (Hp : cells w0 !! p = Some None).
  { subst w0 p. simpl. rewrite lookup_app_r by lia. now rewrite Nat.sub_diag. }
  assert (Hcall : call ftab func self (args ++ [VCallback many p]) w0
                  = (Exn (TypeError "not a function"), w0))
    by (destruct func; try discriminate; reflexivity).
  exists (settle p (Rejects (TypeError "not a function")) w0). split.
  - unfold apply_adapted, promiseGenerator, new_Promise. fold p. fold w0.
    now rewrite Hcall.
  - destruct (settle_frame w0 p (Rejects (TypeError "not a function")))
      as (-> & -> & _ & -> & _).
    rewrite cell_settle_pending by assumption. auto.
Qed.

(** X11. Calls of adapted functions do not interfere with one another.  A
    call makes a promise of its own; every promise that existed before is,
    once the host has run the deferred calls, in the state in which the
    host would have left it without the call; and the deferred calls still
    only name promises that exist, so the next call can follow. *)
Theorem adapted_calls_are_independent many k self args w :
  later_wf w ->
  exists w',
    promiseGenerator ftab many (VFun k) self args w = (Ok (length (cells w)), w') /\
    length (cells w') = S (length (cells w)) /\
    (forall q, (q < length (cells w))%nat ->
       cell w' q = cell w q /\ cell (drain w') q = cell (drain w) q) /\
    later_wf w' /\ later_wf (drain w').
Proof.
  intros Hwf.
  destruct (promiseGenerator_world many k self args w) as [Hrun Hp].
  cbv zeta in Hrun, Hp.
  set (p := length (cells w)) in *. set (cb := VCallback many p) in *.
  set (b := (ftab k self (args ++ [cb]) (heap w)).1) in *.
  set (h := (ftab k self (args ++ [cb]) (heap w)).2) in *.
  set (w1 := World h (cells w ++ [None]) _ (console w) (later w)) in *.
  set (w2 := run_callbacks (map (fun a => (cb, a)) (cb_sync b)) w1) in *.
  set (w3 := set_later (later w ++ map (fun a => (cb, a)) (cb_async b)) w2) in *.
  set (w' := match outcome b with Ok _ => w3 | Exn e => settle p (Rejects e) w3 end) in *.
  destruct (run_callbacks_frame (map (fun a => (cb, a)) (cb_sync b)) w1)
    as (_ & _ & _ & _ & Hn2). fold w2 in Hn2.
  assert (Hlen : length (cells w') = S p).
  { assert (length (cells w3) = S p) as H3.
    { subst w3. cbn. rewrite Hn2. subst w1. cbn. rewrite length_app. cbn. lia. }
    subst w'. destruct (outcome b); [exact H3|].
    destruct (settle_frame w3 p (Rejects e)) as (_ & _ & _ & _ & ->). exact H3. }
  assert (Hlater : later w' = later w ++ map (fun a => (cb, a)) (cb_async b)).
  { subst w'. destruct (outcome b); [reflexivity|].
    now destruct (settle_frame w3 p (Rejects e)) as (_ & _ & _ & -> & _). }
  assert (Hold : forall q, (q < p)%nat -> cells w' !! q = cells w !! q).
  { intros q Hq.
    assert (cells w3 !! q = cells w !! q) as H3.
    { subst w3. cbn. subst w2 cb. rewrite run_callbacks_own by lia.
      subst w1. cbn. now rewrite lookup_app_l. }
    subst w'. destruct (outcome b); [exact H3|].
    rewrite settle_other_lookup by lia. exact H3. }
  exists w'. split; [exact Hrun|]. split; [exact Hlen|]. split; [|split].
  - intros q Hq. split; [unfold cell; now rewrite Hold|].
    unfold drain, cell. rewrite Hlater, run_callbacks_app.
    subst cb. rewrite run_callbacks_own by lia.
    erewrite run_callbacks_local; [reflexivity|]. cbn. now apply Hold.
  - unfold later_wf. rewrite Hlater, Hlen. apply Forall_app. split.
    + eapply Forall_impl; [exact Hwf|]. intros [c a0].
      unfold targets_below. cbn. fold p. destruct c; auto; lia.
    + clear. induction (cb_async b) as [|a1 l1 IHl]; cbn [map]; constructor;
        [unfold targets_below; cbn; lia | exact IHl].
  - unfold later_wf, drain.
    match goal with
    | |- Forall _ (later (run_callbacks ?l ?w0)) =>
        destruct (run_callbacks_frame l w0) as (_ & _ & _ & -> & _)
    end. constructor.
Qed.

End AdapterEdges.

(** ** promise: converting twice *)

Lemma resolution_never_fulfils_with_future :
  forall v r, resolution v = Fulfills r -> is_future r = false.
Proof.
  fix IH 1. intros v r H.
  destruct v as [ | | b | n | s | nm msg | l | l | f | many p | s ];
    try (simpl in H; injection H as <-; reflexivity).
  destruct s as [y | e | ]; simpl in H; try discriminate.
  exact (IH y r H).
Qed.

Lemma resolution_idempotent v :
  resolution (VFuture (resolution v)) = resolution v.
Proof.
  destruct (resolution v) as [r|e|] eqn:E; simpl; try reflexivity.
  eapply resolution_fulfils_plain. exact E.
Qed.

(** X12. Converting is idempotent on everything that is not a function:
    the future [promise(x)] returns, converted again, settles the same
    way; and such a future never fulfils with a thenable. *)
Theorem promise_is_idempotent x w :
  is_function x = false ->
  exists s,
    promise x w = (Ok (APromise s), w) /\
    promise (VFuture s) w = (Ok (APromise s), w) /\
    (forall v, s = Fulfills v -> is_future v = false).
Proof.
  intros Hf. exists (resolution x).
  unfold promise, Promise_resolve, ret. rewrite Hf. cbn [is_function].
  split; [reflexivity|]. split; [now rewrite resolution_idempotent|].
  intros v Hv. eapply resolution_never_fulfils_with_future. exact Hv.
Qed.

(** ** delay and delayReject *)

(** X13. [delay(ms, v)] returns a fresh future that is pending until the
    timer fires and then settles as [Promise.resolve(v)] would: it fulfils
    with [v] when [v] is not a thenable, and follows [v] when it is, so
    [delay(ms, rejected)] rejects.  The timer fires once; the call and the
    timer call no caller function and leave the heap and all other
    promises alone. *)
Theorem delay_settles_as_resolve ms v w :
  let p := length (cells w) in
  exists c w0,
    delay ms v w = (Ok c, w0) /\
    dl_promise c = p /\ cell w p = None /\ cell w0 p = None /\
    let c1 := (delay_fire c w0).1 in
    let w1 := (delay_fire c w0).2 in
    cell w1 p = Some (resolution v) /\
    (is_future v = false -> cell w1 p = Some (Fulfills v)) /\
    (forall e, v = VFuture (Rejects e) -> cell w1 p = Some (Rejects e)) /\
    delay_fire c1 w1 = (c1, w1) /\
    heap w1 = heap w /\ trace w1 = trace w /\
    (forall q, (q < p)%nat -> cell w1 q = cell w q).
Proof.
  intros p.
  set (w0 := set_cells (cells w ++ [None]) w).
  assert (Hp : cells w0 !! p = Some None).
  { subst w0 p. simpl. rewrite lookup_app_r by lia. now rewrite Nat.sub_diag. }
  exists (DelayCall p false (Some (ms, v))), w0.
  split; [reflexivity|]. split; [reflexivity|]. split.
  { unfold cell. subst p. now rewrite lookup_ge_None_2 by lia. }
  split; [apply cell_pending_iff in Hp; tauto|].
  cbn [delay_fire dl_timer dl_rejects dl_promise fst snd resolve modify].
  assert (Hc : cell (settle p (resolution v) w0) p = Some (resolution v))
    by now apply cell_settle_pending.
  split; [exact Hc|]. split; [intros Hv; now rewrite Hc, resolution_not_future|].
  split; [intros e ->; exact Hc|]. split; [reflexivity|].
  destruct (settle_frame w0 p (resolution v)) as (-> & -> & _).
  split; [reflexivity|]. split; [reflexivity|].
  intros q Hq. rewrite cell_settle_other by lia.
  unfold cell. subst w0. simpl. now rewrite lookup_app_l.
Qed.

(** X14. [delayReject(ms, v)] returns a fresh future that is pending until
    the timer fires and then rejects with [v] itself, also when [v] is a
    thenable (nothing is followed): it never fulfils. *)
Theorem delayReject_rejects_with_the_value ms v w :
  let p := length (cells w) in
  exists c w0,
    delayReject ms v w = (Ok c, w0) /\
    dl_promise c = p /\ cell w0 p = None /\
    let c1 := (delay_fire c w0).1 in
    let w1 := (delay_fire c w0).2 in
    cell w1 p = Some (Rejects v) /\
    delay_fire c1 w1 = (c1, w1) /\
    heap w1 = heap w /\ trace w1 = trace w /\
    (forall q, (q < p)%nat -> cell w1 q = cell w q).
Proof.
  intros p.
  set (w0 := set_cells (cells w ++ [None]) w).
  assert (Hp : cells w0 !! p = Some None).
  { subst w0 p. simpl. rewrite lookup_app_r by lia. now rewrite Nat.sub_diag. }
  exists (DelayCall p true (Some (ms, v))), w0.
  split; [reflexivity|]. split; [reflexivity|].
  split; [apply cell_pending_iff in Hp; tauto|].
  cbn [delay_fire dl_timer dl_rejects dl_promise fst snd reject modify].
  split; [now apply cell_settle_pending|]. split; [reflexivity|].
  destruct (settle_frame w0 p (Rejects v)) as (-> & -> & _).
  split; [reflexivity|]. split; [reflexivity|].
  intros q Hq. rewrite cell_settle_other by lia.
  unfold cell. subst w0. simpl. now rewrite lookup_app_l.
Qed.

(** ** deferred *)

(** X15. [deferred()] returns a handle on a fresh promise that is pending
    until the handle is used.  Whatever calls of [resolve] and [reject] are
    then made on the handle, the first one decides ([resolve(v)] settles
    as [Promise.resolve(v)], [reject(e)] rejects with [e]) and the others
    change nothing; no other promise, nor the heap, is touched. *)
Theorem deferred_first_call_decides w c cs :
  let p := length (cells w) in
  exists h w0,
    deferred w = (Ok h, w0) /\
    df_promise h = p /\ cell w0 p = None /\
    cell (handle_run h (c :: cs) w0) p = Some (handle_settles c) /\
    handle_run h (c :: cs) w0 = handle_run h [c] w0 /\
    heap (handle_run h (c :: cs) w0) = heap w /\
    trace (handle_run h (c :: cs) w0) = trace w /\
    (forall q, (q < p)%nat -> cell (handle_run h (c :: cs) w0) q = cell w q).
Proof.
  intros p.
  set (w0 := set_cells (cells w ++ [None]) w).
  assert (Hp : cells w0 !! p = Some None).
  { subst w0 p. simpl. rewrite lookup_app_r by lia. now rewrite Nat.sub_diag. }
  exists (Deferred (resolve p) (reject p) p), w0.
  split; [reflexivity|]. split; [reflexivity|].
  split; [apply cell_pending_iff in Hp; tauto|].
  assert (H1 : handle_apply (Deferred (resolve p) (reject p) p) c w0
               = settle p (handle_settles c) w0) by (destruct c; reflexivity).
  assert (Hc1 : cell (settle p (handle_settles c) w0) p = Some (handle_settles c))
    by now apply cell_settle_pending.
  assert (Hstay : forall cs' w', cell w' p = Some (handle_settles c) ->
            handle_run (Deferred (resolve p) (reject p) p) cs' w' = w').
  { induction cs' as [|c' cs' IH]; intros w' H; [reflexivity|].
    cbn [handle_run fold_left].
    assert (handle_apply (Deferred (resolve p) (reject p) p) c' w' = w') as ->.
    { destruct c'; cbn; eapply settle_settled; exact H. }
    now apply IH. }
  change (handle_run (Deferred (resolve p) (reject p) p) (c :: cs) w0)
    with (handle_run (Deferred (resolve p) (reject p) p) cs
            (handle_apply (Deferred (resolve p) (reject p) p) c w0)).
  change (handle_run (Deferred (resolve p) (reject p) p) [c] w0)
    with (handle_apply (Deferred (resolve p) (reject p) p) c w0).
  rewrite H1, (Hstay cs _ Hc1).
  split; [exact Hc1|]. split; [reflexivity|].
  destruct (settle_frame w0 p (handle_settles c)) as (-> & -> & _).
  split; [reflexivity|]. split; [reflexivity|].
  intros q Hq. rewrite cell_settle_other by lia.
  unfold cell. subst w0. simpl. now rewrite lookup_app_l.
Qed.

(** ** timeout: what it leaves alone, and an input that is not a thenable *)

(** One delivered event either changes nothing in the world or, [done]
    being false, sets it and calls a resolving function of the promise. *)
Lemma timeout_deliver_cases ev c w :
  let c' := (timeout_deliver ev c w).1 in
  let w' := (timeout_deliver ev c w).2 in
  t_promise c' = t_promise c /\ t_reactions c' = t_reactions c /\
  ((w' = w /\ done c' = done c) \/
   (done c = false /\ done c' = true /\ exists s, w' = settle (t_promise c) s w)).
Proof.
  unfold timeout_deliver, timeout_timer, timeout_val, timeout_err.
  destruct ev; cbn [t_timer t_promise done t_reactions].
  - destruct (t_timer c); [|cbn; auto].
    destruct (done c) eqn:Hd; cbn; rewrite ?Hd; cbn; [auto|].
    repeat split; auto. right. eauto.
  - destruct (t_reactions c) eqn:Hr; [|cbn; auto].
    destruct (done c) eqn:Hd; cbn; rewrite ?Hd; cbn; [auto|].
    repeat split; auto. right. eauto.
  - destruct (t_reactions c) eqn:Hr; [|cbn; auto].
    destruct (done c) eqn:Hd; cbn; rewrite ?Hd; cbn; [auto|].
    repeat split; auto. right. eauto.
Qed.

Lemma timeout_run_frame evs : forall c w,
  let w' := (timeout_run evs c w).2 in
  heap w' = heap w /\ trace w' = trace w /\ console w' = console w /\
  length (cells w') = length (cells w) /\
  (forall q, q <> t_promise c -> cell w' q = cell w q) /\
  (forall s, cell w (t_promise c) = Some s -> cell w' (t_promise c) = Some s).
Proof.
  induction evs as [|ev evs IH]; intros c w; [cbn; auto 10|].
  cbn [timeout_run].
  destruct (timeout_deliver_cases ev c w) as (Hp & _ & Hcase).
  destruct (timeout_deliver ev c w) as [c1 w1]. cbn [fst snd] in *.
  specialize (IH c1 w1). cbv zeta in IH. rewrite Hp in IH.
  destruct IH as (Hh & Ht & Hco & Hl & Hq & Hs).
  destruct Hcase as [[-> _] | (_ & _ & s & ->)]; [auto 10|].
  destruct (settle_frame w (t_promise c) s) as (Hh1 & Ht1 & Hco1 & _ & Hl1).
  rewrite Hh, Ht, Hco, Hl, Hh1, Ht1, Hco1, Hl1.
  repeat split; auto.
  - intros q Hne. rewrite Hq by assumption. apply cell_settle_other. congruence.
  - intros s0 H0. apply Hs. now apply settle_keeps.
Qed.

(** The flag and the promise go together. *)
Lemma timeout_run_done_iff_settled evs : forall c w,
  ((done c = false /\ cells w !! t_promise c = Some None) \/
   (done c = true /\ exists s, cell w (t_promise c) = Some s)) ->
  let c' := (timeout_run evs c w).1 in
  let w' := (timeout_run evs c w).2 in
  (done c' = false /\ cell w' (t_promise c) = None) \/
  (done c' = true /\ exists s, cell w' (t_promise c) = Some s).
Proof.
  induction evs as [|ev evs IH]; intros c w Hinv.
  - cbn. destruct Hinv as [[Hd Hp]|Hinv]; [left|right; exact Hinv].
    apply cell_pending_iff in Hp. tauto.
  - cbn [timeout_run].
    destruct (timeout_deliver_cases ev c w) as (Hp & _ & Hcase).
    destruct (timeout_deliver ev c w) as [c1 w1]. cbn [fst snd] in *.
    specialize (IH c1 w1). cbv zeta in IH. rewrite Hp in IH. apply IH.
    destruct Hcase as [[-> ->] | (Hd & Hd1 & s & ->)]; [exact Hinv|].
    right. split; [exact Hd1|]. exists s. apply cell_settle_pending.
    destruct Hinv as [[_ Hpend]|[Hd' _]]; [exact Hpend|congruence].
Qed.

(** X16. Whatever events the host delivers to a [timeout] call on a
    thenable, in whatever order and however often: no caller function is
    called, the heap, the console and every other promise stay as they
    were, and [done] is true exactly when the returned future is
    settled. *)
Theorem timeout_touches_only_its_promise ms s w evs :
  let p := length (cells w) in
  exists c w0,
    timeout ms (VFuture s) w = (Ok c, w0) /\
    let c' := (timeout_run evs c w0).1 in
    let w' := (timeout_run evs c w0).2 in
    heap w' = heap w /\ trace w' = trace w /\ console w' = console w /\
    (forall q, (q < p)%nat -> cell w' q = cell w q) /\
    ((done c' = false /\ cell w' p = None) \/
     (done c' = true /\ exists s', cell w' p = Some s')).
Proof.
  intros p.
  set (w0 := set_cells (cells w ++ [None]) w).
  assert (Hp : cells w0 !! p = Some None).
  { subst w0 p. simpl. rewrite lookup_app_r by lia. now rewrite Nat.sub_diag. }
  exists (TimeoutCall p false (Some ms) true), w0. split; [reflexivity|].
  destruct (timeout_run_frame evs (TimeoutCall p false (Some ms) true) w0)
    as (Hh & Ht & Hco & _ & Hq & _).
  cbv zeta. rewrite Hh, Ht, Hco.
  split; [reflexivity|]. split; [reflexivity|]. split; [reflexivity|]. split.
  - intros q Hlt. rewrite Hq by (cbn; lia).
    unfold cell. subst w0. simpl. now rewrite lookup_app_l.
  - apply (timeout_run_done_iff_settled evs (TimeoutCall p false (Some ms) true) w0).
    left. split; [reflexivity|exact Hp].
Qed.

(** X17. [timeout(ms, x)] with an [x] that is not a thenable does not
    throw: the failed [x.then] rejects the returned future at once with a
    TypeError.  The timer is set all the same, and when it fires [done]
    is still false, so the callback does call [reject]; the future keeps
    the TypeError. *)
Theorem timeout_on_non_thenable ms x w evs :
  is_future x = false ->
  let p := length (cells w) in
  exists c w0,
    timeout ms x w = (Ok c, w0) /\
    done c = false /\ t_timer c = Some ms /\
    cell w0 p = Some (Rejects (TypeError "promise.then is not a function")) /\
    done (timeout_deliver TimerFires c w0).1 = true /\
    cell (timeout_run evs c w0).2 p
      = Some (Rejects (TypeError "promise.then is not a function")) /\
    trace (timeout_run evs c w0).2 = trace w.
Proof.
  intros Hx p.
  set (w0 := set_cells (cells w ++ [None]) w).
  assert (Hp : cells w0 !! p = Some None).
  { subst w0 p. simpl. rewrite lookup_app_r by lia. now rewrite Nat.sub_diag. }
  set (w1 := settle p (Rejects (TypeError "promise.then is not a function")) w0).
  exists (TimeoutCall p false (Some ms) false), w1. split.
  { unfold timeout, bind, new_Promise. rewrite Hx. reflexivity. }
  assert (Hc : cell w1 p = Some (Rejects (TypeError "promise.then is not a function")))
    by now apply cell_settle_pending.
  split; [reflexivity|]. split; [reflexivity|]. split; [exact Hc|].
  split; [reflexivity|].
  destruct (timeout_run_frame evs (TimeoutCall p false (Some ms) false) w1)
    as (_ & Ht & _ & _ & _ & Hs).
  split; [now apply Hs|]. cbv zeta in Ht. rewrite Ht.
  subst w1. now destruct (settle_frame w0 p
    (Rejects (TypeError "promise.then is not a function"))) as (_ & -> & _).
Qed.

(** ** timeout over delay *)

Lemma host_delay_in_range ms :
  1 <= ms <= 2147483647 -> host_delay ms = ms.
Proof.
  intros H. unfold host_delay.
  replace (Z.ltb ms 1) with false by (symmetry; apply Z.ltb_ge; lia).
  replace (Z.ltb 2147483647 ms) with false by (symmetry; apply Z.ltb_ge; lia).
  reflexivity.
Qed.

Lemma race_order_cases ms_timeout ms_delay first :
  (host_delay ms_timeout < host_delay ms_delay ->
   race_order ms_timeout ms_delay first = [TimeoutTimer; DelayTimer]) /\
  (host_delay ms_delay < host_delay ms_timeout ->
   race_order ms_timeout ms_delay first = [DelayTimer; TimeoutTimer]).
Proof.
  unfold race_order. split; intros H.
  - replace (Z.ltb (host_delay ms_delay) (host_delay ms_timeout)) with false
      by (symmetry; apply Z.ltb_ge; lia).
    replace (Z.eqb (host_delay ms_delay) (host_delay ms_timeout)) with false
      by (symmetry; apply Z.eqb_neq; lia).
    reflexivity.
  - replace (Z.ltb (host_delay ms_delay) (host_delay ms_timeout)) with true
      by (symmetry; apply Z.ltb_lt; lia).
    reflexivity.
Qed.

(** Both orders of the two timers of [timeout(ms1, delay(ms2, v))]. *)
Lemma race_both_orders ms1 ms2 v w :
  exists d w1 c w2,
    delay (VNum ms2) v w = (Ok d, w1) /\
    timeout (VNum ms1) (delay_future d) w1 = (Ok c, w2) /\
    dl_promise d <> t_promise c /\
    (let w' := (race_run [TimeoutTimer; DelayTimer] d c w2).2 in
     cell w' (t_promise c) = Some (Rejects (Error "Promise timed out")) /\
     cell w' (dl_promise d) = Some (resolution v)) /\
    (let w' := (race_run [DelayTimer; TimeoutTimer] d c w2).2 in
     cell w' (t_promise c)
       = Some match resolution v with
              | NeverSettles => Rejects (Error "Promise timed out")
              | s => s
              end /\
     cell w' (dl_promise d) = Some (resolution v)).
Proof.
  set (pd := length (cells w)).
  set (w1 := set_cells (cells w ++ [None]) w).
  set (pt := length (cells w1)).
  set (w2 := set_cells (cells w1 ++ [None]) w1).
  assert (Hpt : pt = S pd).
  { unfold pt, w1, pd. simpl. rewrite length_app. simpl. lia. }
  assert (Hd2 : cells w2 !! pd = Some None).
  { unfold w2, w1, pd. simpl.
    rewrite lookup_app_l by (rewrite length_app; simpl; lia).
    rewrite lookup_app_r by lia. now rewrite Nat.sub_diag. }
  assert (Ht2 : cells w2 !! pt = Some None).
  { unfold w2, pt. simpl. rewrite lookup_app_r by lia. now rewrite Nat.sub_diag. }
  exists (DelayCall pd false (Some (VNum ms2, v))), w1,
         (TimeoutCall pt false (Some (VNum ms1)) true), w2.
  split; [reflexivity|]. split; [reflexivity|].
  split; [cbn [dl_promise t_promise]; lia|].
  cbn [dl_promise t_promise]. split.
  - (* the timer of timeout first *)
    set (wa := settle pt (Rejects (Error "Promise timed out")) w2).
    assert (Hta : cell wa pt = Some (Rejects (Error "Promise timed out")))
      by now apply cell_settle_pending.
    assert (Hda : cells wa !! pd = Some None)
      by (subst wa; rewrite settle_other_lookup by lia; exact Hd2).
    set (wb := settle pd (resolution v) wa).
    assert (Hdb : cell wb pd = Some (resolution v)) by now apply cell_settle_pending.
    assert (Htb : cell wb pt = Some (Rejects (Error "Promise timed out")))
      by now apply settle_keeps.
    assert (Hrun : (race_run [TimeoutTimer; DelayTimer]
                      (DelayCall pd false (Some (VNum ms2, v)))
                      (TimeoutCall pt false (Some (VNum ms1)) true) w2).2 = wb).
    { cbn [race_run race_deliver timeout_deliver t_timer timeout_timer done negb
           set_done t_promise t_reactions bind reject modify ret fst snd
           dl_timer delay_fire dl_rejects dl_promise resolve].
      fold wa. fold wb. rewrite Hdb.
      destruct (resolution v); reflexivity. }
    cbv zeta. rewrite Hrun. split; assumption.
  - (* the timer of the delay first *)
    set (wa := settle pd (resolution v) w2).
    assert (Hda : cell wa pd = Some (resolution v)) by now apply cell_settle_pending.
    assert (Hta : cells wa !! pt = Some None)
      by (subst wa; rewrite settle_other_lookup by lia; exact Ht2).
    cbn [race_run race_deliver dl_timer delay_fire dl_rejects dl_promise resolve
         modify fst snd].
    fold wa. rewrite Hda.
    destruct (resolution v) as [r|e|] eqn:Ev.
    + cbn [timeout_deliver t_reactions timeout_val done negb set_done t_promise
           bind resolve modify ret fst snd t_timer timeout_timer].
      rewrite (resolution_fulfils_plain _ _ Ev).
      split; [now apply cell_settle_pending|].
      rewrite cell_settle_other by lia. exact Hda.
    + cbn [timeout_deliver t_reactions timeout_err done negb set_done t_promise
           bind reject modify ret fst snd t_timer timeout_timer].
      split; [now apply cell_settle_pending|].
      rewrite cell_settle_other by lia. exact Hda.
    + cbn [timeout_deliver t_reactions done negb set_done t_promise
           bind reject modify ret fst snd t_timer timeout_timer].
      split; [now apply cell_settle_pending|].
      rewrite cell_settle_other by lia. exact Hda.
Qed.

(** X18. [timeout(ms1, delay(ms2, v))] for a plain value [v] and two
    different delays between 1 and 2^31-1 milliseconds, which the host
    takes as they are: the host fires the timer with the smaller delay
    first.  If that is the timer of [timeout], the result rejects with
    [Error('Promise timed out')]; if it is the timer of the delay, the
    result fulfils with [v].  Either way the delay itself still fulfils
    with [v]: the input is abandoned, not cancelled. *)
Theorem timeout_over_delay ms1 ms2 v w first :
  is_future v = false ->
  1 <= ms1 <= 2147483647 -> 1 <= ms2 <= 2147483647 -> ms1 <> ms2 ->
  exists d w1 c w2,
    delay (VNum ms2) v w = (Ok d, w1) /\
    timeout (VNum ms1) (delay_future d) w1 = (Ok c, w2) /\
    dl_promise d <> t_promise c /\
    race_order ms1 ms2 first
      = (if Z.ltb ms1 ms2 then [TimeoutTimer; DelayTimer]
         else [DelayTimer; TimeoutTimer]) /\
    let w' := (race_run (race_order ms1 ms2 first) d c w2).2 in
    cell w' (t_promise c)
      = Some (if Z.ltb ms1 ms2 then Rejects (Error "Promise timed out")
              else Fulfills v) /\
    cell w' (dl_promise d) = Some (Fulfills v).
Proof.
  intros Hv H1 H2 Hne.
  destruct (race_both_orders ms1 ms2 v w)
    as (d & w1 & c & w2 & Hd & Hc & Hpq & Hto & Hdl).
  rewrite (resolution_not_future v Hv) in Hto, Hdl.
  exists d, w1, c, w2.
  split; [exact Hd|]. split; [exact Hc|]. split; [exact Hpq|].
  destruct (race_order_cases ms1 ms2 first) as [Ho1 Ho2].
  rewrite (host_delay_in_range ms1 H1), (host_delay_in_range ms2 H2) in Ho1, Ho2.
  destruct (Z.ltb ms1 ms2) eqn:E.
  - apply Z.ltb_lt in E. rewrite Ho1 by lia. split; [reflexivity|]. exact Hto.
  - apply Z.ltb_ge in E. rewrite Ho2 by lia. split; [reflexivity|]. exact Hdl.
Qed.

(** ** waitFor *)

Section WaitForEdges.
Variable ftab : fid -> jsfun.

Lemma waitFor_tick_polling k c w :
  polling k c w ->
  let c1 := match outcome (ftab k VUndef [] (heap w)).1 with
            | Ok v => set_value v c
            | Exn e => set_error e c
            end in
  waitFor_deliver ftab Tick c w =
  if truthy (value c1) || truthy (error c1) then
    (clearInterval (set_stopped c1),
     settle (w_promise c)
       (if truthy (error c1) then Rejects (error c1) else resolution (value c1))
       (after_tester ftab k w))
  else (c1, after_tester ftab k w).
Proof.
  intros (Ht & Hs & Hi & Hp) c1. unfold waitFor_deliver. rewrite Hi.
  rewrite (waitFor_tick_eq ftab k c w c1 _ Ht Hs eq_refl eq_refl).
  destruct (truthy (value c1) || truthy (error c1)); reflexivity.
Qed.

Lemma after_tester_console k w :
  console (after_tester ftab k w) = console w.
Proof.
  unfold after_tester. destruct (ftab k VUndef [] (heap w)) as [b h]. reflexivity.
Qed.

(** Once the interval is cleared no event changes the world, and the call
    stays stopped. *)
Lemma waitFor_cleared_run evs : forall c w,
  w_interval c = None ->
  let c' := (waitFor_run ftab evs c w).1 in
  (waitFor_run ftab evs c w).2 = w /\ w_interval c' = None /\
  stopped c' = stopped c /\ w_promise c' = w_promise c.
Proof.
  induction evs as [|ev evs IH]; intros c w Hi; [simpl; auto|].
  cbn [waitFor_run]. destruct ev; cbn [waitFor_deliver].
  - rewrite Hi. now apply IH.
  - destruct (w_deadline c); cbn [waitFor_deadline ret]; [|now apply IH].
    match goal with |- context [waitFor_run ftab evs ?c1 w] =>
      destruct (IH c1 w Hi) as (H1 & H2 & H3 & H4) end.
    auto.
Qed.

(** What one event does to a call that is polling. *)
Lemma waitFor_step k c w ev :
  polling k c w ->
  let c' := (waitFor_deliver ftab ev c w).1 in
  let w' := (waitFor_deliver ftab ev c w).2 in
  w_promise c' = w_promise c /\ console w' = console w /\
  (forall q, q <> w_promise c -> cells w' !! q = cells w !! q) /\
  trace w' = trace w ++ repeat (ECall k VUndef []) (length (ticks_of [ev])) /\
  (polling k c' w' \/
   (stopped c' = true /\ w_interval c' = None /\
    exists s, cells w' !! w_promise c = Some (Some s))).
Proof.
  intros Hpoll c' w'. subst c' w'. destruct ev.
  - rewrite (waitFor_tick_polling k c w Hpoll).
    destruct Hpoll as (Ht & Hs & Hi & Hp).
    destruct (after_tester_frame ftab k w) as (Hc & Htr & _).
    pose proof (after_tester_console k w) as Hco.
    set (c1 := match outcome (ftab k VUndef [] (heap w)).1 with
               | Ok v => set_value v c
               | Exn e => set_error e c
               end).
    assert (Hc1 : w_promise c1 = w_promise c /\ tester c1 = tester c /\
                  stopped c1 = stopped c /\ w_interval c1 = w_interval c)
      by (subst c1; destruct (outcome _); auto).
    destruct Hc1 as (Hp1 & Ht1 & Hs1 & Hi1).
    cbn [ticks_of List.filter is_tick length repeat].
    destruct (truthy (value c1) || truthy (error c1)); cbn [fst snd].
    + set (s := if truthy (error c1) then Rejects (error c1)
                else resolution (value c1)).
      destruct (settle_frame (after_tester ftab k w) (w_promise c) s)
        as (_ & Hst & Hsc & _ & _).
      split; [exact Hp1|]. split; [congruence|].
      split; [intros q Hq; rewrite settle_other_lookup by congruence; now rewrite Hc|].
      split; [congruence|]. right.
      split; [reflexivity|]. split; [reflexivity|]. exists s.
      rewrite settle_pending by (rewrite Hc; exact Hp). cbn.
      rewrite Hc. apply list_lookup_insert_eq. eapply lookup_lt_Some; eassumption.
    + split; [exact Hp1|]. split; [exact Hco|].
      split; [intros q _; now rewrite Hc|]. split; [exact Htr|]. left.
      repeat split; try congruence.
  - cbn [ticks_of List.filter is_tick length repeat]. rewrite app_nil_r.
    unfold waitFor_deliver.
    destruct (w_deadline c); cbn [waitFor_deadline ret fst snd set_error w_promise];
      (split; [reflexivity|]; split; [reflexivity|]; split; [reflexivity|];
       split; [reflexivity|]; left; exact Hpoll).
Qed.

Lemma ticks_of_cons ev evs :
  length (ticks_of (ev :: evs)) = (length (ticks_of [ev]) + length (ticks_of evs))%nat.
Proof. unfold ticks_of. destruct ev; reflexivity. Qed.

Lemma waitFor_run_polling k evs : forall c w,
  polling k c w ->
  let c' := (waitFor_run ftab evs c w).1 in
  let w' := (waitFor_run ftab evs c w).2 in
  exists m, (m <= length (ticks_of evs))%nat /\
    w_promise c' = w_promise c /\ console w' = console w /\
    (forall q, q <> w_promise c -> cells w' !! q = cells w !! q) /\
    trace w' = trace w ++ repeat (ECall k VUndef []) m /\
    ((polling k c' w' /\ m = length (ticks_of evs)) \/
     (stopped c' = true /\ w_interval c' = None /\
      exists s, cells w' !! w_promise c = Some (Some s))).
Proof.
  induction evs as [|ev evs IH]; intros c w Hpoll.
  - exists 0%nat. cbn. rewrite app_nil_r. repeat split; auto.
  - cbn [waitFor_run].
    destruct (waitFor_step k c w ev Hpoll) as (Hp & Hco & Hq & Htr & Hcase).
    rewrite ticks_of_cons.
    destruct (waitFor_deliver ftab ev c w) as [c1 w1]. cbn [fst snd] in *.
    destruct Hcase as [Hpoll1 | (Hs1 & Hi1 & s & Hs)].
    + destruct (IH c1 w1 Hpoll1) as (m & Hm & Hp' & Hco' & Hq' & Htr' & Hcase').
      exists (length (ticks_of [ev]) + m)%nat.
      split; [lia|]. split; [congruence|]. split; [congruence|].
      split; [intros q Hne; rewrite Hq' by congruence; now apply Hq|].
      split; [rewrite Htr', Htr, <- app_assoc, repeat_app; reflexivity|].
      destruct Hcase' as [[Hpl Hme] | (Ha & Hb & s & Hc)].
      * left. split; [exact Hpl | lia].
      * right. rewrite <- Hp. eauto.
    + destruct (waitFor_cleared_run evs c1 w1 Hi1) as (Hw & Hi' & Hs' & Hp').
      exists (length (ticks_of [ev])). rewrite Hw.
      split; [lia|]. split; [congruence|]. split; [exact Hco|].
      split; [exact Hq|]. split; [exact Htr|]. right.
      split; [congruence|]. split; [exact Hi'|]. eauto.
Qed.

(** X19. While [waitFor] polls a tester [k], whatever timers the host
    fires and in whatever order: the tester is called with no arguments
    and no receiver, once for every tick as long as the call is polling and
    never after it stopped; nothing is written to the console and no other
    promise is touched; and the call is either polling, with the interval
    set and its promise pending, or stopped, with the interval cleared and
    the fate of its promise decided. *)
Theorem waitFor_polls_until_decided ms t k w0 c0 w1 evs :
  waitFor ms t w0 = (Ok c0, w1) -> tester c0 = VFun k ->
  let c' := (waitFor_run ftab evs c0 w1).1 in
  let w' := (waitFor_run ftab evs c0 w1).2 in
  exists m, (m <= length (ticks_of evs))%nat /\
    trace w' = trace w0 ++ repeat (ECall k VUndef []) m /\
    console w' = console w0 /\
    (forall q, (q < length (cells w0))%nat -> cells w' !! q = cells w0 !! q) /\
    ((stopped c' = false /\ w_interval c' = Some 10 /\
      cells w' !! w_promise c0 = Some None /\ m = length (ticks_of evs)) \/
     (stopped c' = true /\ w_interval c' = None /\
      exists s, cells w' !! w_promise c0 = Some (Some s))).
Proof.
  intros Hw Ht.
  assert (Hpoll : polling k c0 w1 /\ w_promise c0 = length (cells w0) /\
                  trace w1 = trace w0 /\ console w1 = console w0 /\
                  cells w1 = cells w0 ++ [None]).
  { unfold waitFor, bind, new_Promise, ret in Hw.
    destruct (is_function ms); injection Hw as <- <-; cbn in Ht |- *;
      (repeat split; try exact Ht; try reflexivity;
       cbn [cells set_cells w_promise];
       rewrite lookup_app_r by lia; now rewrite Nat.sub_diag). }
  destruct Hpoll as (Hpoll & Hp0 & Htr0 & Hco0 & Hce0).
  destruct (waitFor_run_polling k evs c0 w1 Hpoll)
    as (m & Hm & Hp & Hco & Hq & Htr & Hcase).
  intros c' w'. subst c' w'. exists m.
  split; [exact Hm|]. split; [congruence|]. split; [congruence|].
  split.
  { intros q Hlt. rewrite Hq by lia. rewrite Hce0. now apply lookup_app_l. }
  destruct Hcase as [[(Ht' & Hs' & Hi' & Hc') Hme] | Hstop].
  - left. rewrite <- Hp. auto.
  - right. exact Hstop.
Qed.

(** Ticks that leave the call polling record no truthy error. *)
Lemma waitFor_quiet_ticks k j : forall c w,
  polling k c w -> truthy (error c) = false ->
  let c' := (waitFor_run ftab (repeat Tick j) c w).1 in
  let w' := (waitFor_run ftab (repeat Tick j) c w).2 in
  stopped c' = false ->
  polling k c' w' /\ truthy (error c') = false /\ w_promise c' = w_promise c.
Proof.
  induction j as [|j IH]; intros c w Hpoll He; [simpl; auto|].
  cbn [repeat waitFor_run].
  pose proof (waitFor_tick_polling k c w Hpoll) as Hd. cbv zeta in Hd.
  destruct (waitFor_step k c w Tick Hpoll) as (Hp & _ & _ & _ & Hcase).
  destruct (waitFor_deliver ftab Tick c w) as [c1 w1]. cbn [fst snd] in *.
  destruct Hcase as [Hpoll1 | (Hs1 & Hi1 & _)].
  - assert (He1 : truthy (error c1) = false).
    { destruct Hpoll1 as (_ & Hs1 & _).
      destruct (outcome (ftab k VUndef [] (heap w)).1) as [v|e];
        cbn [value error set_value set_error] in Hd.
      - destruct (truthy v || truthy (error c)) eqn:E;
          injection Hd as -> _; [discriminate Hs1 | exact He].
      - destruct (truthy (value c) || truthy e) eqn:E;
          injection Hd as -> _; [discriminate Hs1|].
        cbn [error set_error]. now apply orb_false_elim in E. }
    cbv zeta. intros Hs'. destruct (IH c1 w1 Hpoll1 He1 Hs') as (H1 & H2 & H3).
    split; [exact H1|]. split; [exact H2|]. congruence.
  - destruct (waitFor_cleared_run (repeat Tick j) c1 w1 Hi1) as (_ & _ & Hs' & _).
    cbv zeta. intros Hs. congruence.
Qed.

(** X20. The tick that decides.  As long as only ticks were delivered and
    the call has not stopped, the next tick calls the tester once: a truthy
    return value resolves the promise with it, a truthy thrown value
    rejects the promise with it, and in both cases the interval is cleared
    and no later event calls the tester or changes anything; a falsy return
    value is stored and polling goes on. *)
Theorem waitFor_first_truthy_result_decides ms t k w0 c0 w1 j c w rest :
  waitFor ms t w0 = (Ok c0, w1) -> tester c0 = VFun k ->
  waitFor_run ftab (repeat Tick j) c0 w1 = (c, w) -> stopped c = false ->
  let o := outcome (ftab k VUndef [] (heap w)).1 in
  let c' := (waitFor_run ftab (Tick :: rest) c w).1 in
  let w' := (waitFor_run ftab (Tick :: rest) c w).2 in
  (forall v, o = Ok v -> truthy v = true ->
     cell w' (w_promise c0) = Some (resolution v) /\
     trace w' = trace w ++ [ECall k VUndef []] /\
     stopped c' = true /\ w_interval c' = None) /\
  (forall e, o = Exn e -> truthy e = true ->
     cell w' (w_promise c0) = Some (Rejects e) /\
     trace w' = trace w ++ [ECall k VUndef []] /\
     stopped c' = true /\ w_interval c' = None) /\
  (forall v, o = Ok v -> truthy v = false ->
     waitFor_deliver ftab Tick c w = (set_value v c, after_tester ftab k w) /\
     cell (after_tester ftab k w) (w_promise c0) = None).
Proof.
  intros Hw Ht Hrun Hs.
  assert (Hstart : polling k c0 w1 /\ truthy (error c0) = false).
  { unfold waitFor, bind, new_Promise, ret in Hw.
    destruct (is_function ms); injection Hw as <- <-; cbn in Ht |- *;
      (repeat split; try exact Ht; try reflexivity;
       cbn [cells set_cells w_promise];
       rewrite lookup_app_r by lia; now rewrite Nat.sub_diag). }
  destruct Hstart as (Hpoll0 & He0).
  pose proof (waitFor_quiet_ticks k j c0 w1 Hpoll0 He0) as Hq.
  rewrite Hrun in Hq. cbn [fst snd] in Hq.
  destruct (Hq Hs) as (Hpoll & He & Hp). clear Hq.
  pose proof Hpoll as (Htc & _ & Hic & Hpc).
  assert (Hi : w_interval c <> None) by congruence.
  intros o c' w'. subst o c' w'. rewrite <- Hp. cbn [waitFor_run].
  split; [|split].
  - intros v Ho Hv.
    destruct (waitFor_tick_truthy ftab k c w v Htc Hs Hi He Hpc Ho Hv)
      as (H1 & H2 & H3 & H4).
    destruct (waitFor_deliver ftab Tick c w) as [c1 w2]. cbn [fst snd] in *.
    destruct (waitFor_cleared_run rest c1 w2 H3) as (Hw' & Hi' & Hs' & _).
    rewrite Hw'. repeat split; congruence.
  - intros e Ho Hv.
    destruct (waitFor_tick_throws_truthy ftab k c w e Htc Hs Hi Hpc Ho Hv)
      as (H1 & H2 & H3 & H4).
    destruct (waitFor_deliver ftab Tick c w) as [c1 w2]. cbn [fst snd] in *.
    destruct (waitFor_cleared_run rest c1 w2 H3) as (Hw' & Hi' & Hs' & _).
    rewrite Hw'. repeat split; congruence.
  - intros v Ho Hv.
    rewrite (waitFor_tick_polling k c w Hpoll). rewrite Ho.
    cbn [value error set_value]. rewrite Hv, He. cbn [orb].
    split; [reflexivity|].
    destruct (after_tester_frame ftab k w) as (Hc & _ & _).
    unfold cell. now rewrite Hc, Hpc.
Qed.

Lemma waitFor_run_app evs1 : forall evs2 c w,
  waitFor_run ftab (evs1 ++ evs2) c w =
  waitFor_run ftab evs2 (waitFor_run ftab evs1 c w).1 (waitFor_run ftab evs1 c w).2.
Proof.
  induction evs1 as [|ev evs1 IH]; intros evs2 c w; [reflexivity|].
  cbn [app waitFor_run]. destruct (waitFor_deliver ftab ev c w) as [c1 w1].
  apply IH.
Qed.

(** The deadline callback alone decides nothing. *)
Lemma waitFor_deadlines n : forall c w,
  let c' := (waitFor_run ftab (repeat Deadline n) c w).1 in
  (waitFor_run ftab (repeat Deadline n) c w).2 = w /\
  tester c' = tester c /\ stopped c' = stopped c /\
  w_interval c' = w_interval c /\ w_promise c' = w_promise c.
Proof.
  induction n as [|n IH]; intros c w; [simpl; auto|].
  cbn [repeat waitFor_run waitFor_deliver].
  destruct (w_deadline c); cbn [waitFor_deadline ret]; [|apply IH].
  match goal with |- context [waitFor_run ftab _ ?c1 w] =>
    destruct (IH c1 w) as (H1 & H2 & H3 & H4 & H5) end.
  auto.
Qed.

Lemma waitFor_tick_not_a_function c w :
  is_function (tester c) = false -> stopped c = false ->
  waitFor_tick ftab c w =
  (Ok (clearInterval (set_stopped (set_error (TypeError "not a function") c))),
   settle (w_promise c) (Rejects (TypeError "not a function")) w).
Proof.
  intros Hf Hs. unfold waitFor_tick. rewrite Hs.
  unfold bind, try_catch, call.
  destruct (tester c) eqn:Et; try discriminate Hf;
    unfold ret; cbn [value error set_error truthy];
    rewrite orb_true_r; reflexivity.
Qed.

(** X21. [waitFor] with a tester that is not a function: the first tick,
    whether or not the deadline callback ran before it, fails to call the
    tester, and the promise is rejected with that TypeError (which replaces
    a timeout error recorded before); nothing is called, and the interval
    is cleared. *)
Theorem waitFor_tester_not_a_function ms t w0 n rest :
  is_function ms = false -> is_function t = false ->
  exists c0 w1,
    waitFor ms t w0 = (Ok c0, w1) /\
    let c' := (waitFor_run ftab (repeat Deadline n ++ Tick :: rest) c0 w1).1 in
    let w' := (waitFor_run ftab (repeat Deadline n ++ Tick :: rest) c0 w1).2 in
    cell w' (w_promise c0) = Some (Rejects (TypeError "not a function")) /\
    trace w' = trace w0 /\ heap w' = heap w0 /\
    stopped c' = true /\ w_interval c' = None.
Proof.
  intros Hms Ht. unfold waitFor, bind, new_Promise, ret. rewrite Hms.
  eexists _, _. split; [reflexivity|].
  set (c0 := WaitForCall _ _ _ _ _ _ _).
  set (w1 := set_cells _ w0).
  assert (Hp1 : cells w1 !! w_promise c0 = Some None).
  { unfold w1, c0. cbn [cells set_cells w_promise].
    rewrite lookup_app_r by lia. now rewrite Nat.sub_diag. }
  rewrite waitFor_run_app.
  destruct (waitFor_deadlines n c0 w1) as (Hw & Htc & Hsc & Hic & Hpc).
  destruct (waitFor_run ftab (repeat Deadline n) c0 w1) as [c w].
  cbn [fst snd] in *. subst w.
  cbn [waitFor_run waitFor_deliver]. rewrite Hic. cbn [w_interval c0].
  rewrite waitFor_tick_not_a_function
    by (rewrite ?Htc, ?Hsc; unfold c0; cbn [tester stopped]; (assumption || reflexivity)).
  match goal with |- context [waitFor_run ftab rest ?c1 ?w2] =>
    destruct (waitFor_cleared_run rest c1 w2 eq_refl) as (Hw' & Hi' & Hs' & _) end.
  cbv zeta. rewrite Hw'. rewrite Hpc in *.
  destruct (settle_frame w1 (w_promise c0) (Rejects (TypeError "not a function")))
    as (Hh & Htr & _).
  split; [now apply cell_settle_pending|].
  split; [rewrite Htr; reflexivity|]. split; [rewrite Hh; reflexivity|].
  split; [exact Hs' | exact Hi'].
Qed.

Lemma waitFor_tick_keeps_deadline c w :
  w_deadline (waitFor_deliver ftab Tick c w).1 = w_deadline c.
Proof.
  unfold waitFor_deliver, waitFor_tick, bind, try_catch, ret.
  destruct (w_interval c); [|reflexivity].
  destruct (stopped c); [reflexivity|].
  destruct (call ftab (tester c) VUndef [] w) as [[v|e] w1];
    cbn [value error set_value set_error];
    repeat match goal with
           | |- context [if ?b then _ else _] => destruct b
           end; reflexivity.
Qed.

Lemma waitFor_no_deadline evs : forall c w,
  w_deadline c = None ->
  waitFor_run ftab evs c w = waitFor_run ftab (ticks_of evs) c w.
Proof.
  induction evs as [|ev evs IH]; intros c w Hd; [reflexivity|].
  destruct ev; cbn [ticks_of List.filter is_tick waitFor_run].
  - pose proof (waitFor_tick_keeps_deadline c w) as Hk.
    destruct (waitFor_deliver ftab Tick c w) as [c1 w1]. cbn [fst] in Hk.
    apply IH. congruence.
  - cbn [waitFor_deliver]. rewrite Hd. now apply IH.
Qed.

(** X22. [waitFor(tester)]: when the first argument is a function it is
    the tester, the second argument is ignored whatever it is, and no
    deadline is set: the timers of the host other than the interval have no
    part in the call. *)
Theorem waitFor_function_first f t w0 evs :
  is_function f = true ->
  exists c0 w1,
    waitFor f t w0 = (Ok c0, w1) /\ waitFor f VUndef w0 = (Ok c0, w1) /\
    tester c0 = f /\ w_deadline c0 = None /\
    waitFor_run ftab evs c0 w1 = waitFor_run ftab (ticks_of evs) c0 w1.
Proof.
  intros Hf. unfold waitFor, bind, new_Promise, ret. rewrite Hf.
  eexists _, _. split; [reflexivity|]. split; [reflexivity|].
  split; [reflexivity|]. split; [reflexivity|].
  now apply waitFor_no_deadline.
Qed.

End WaitForEdges.

(** ** The further properties on concrete calls *)

(** [chain([() => 1, null, () => { throw ... }])] fulfils with 1 and calls
    only the first function. *)
Lemma chain_stops_at_falsy_entry_witness :
  heap world_falsy_entry !! 1%positive
    = Some (OArr (map VFun [0%nat] ++ VNull :: [VFun 5%nat])) /\
  truthy VNull = false /\
  exists w',
    chain demo2 (VObj 1%positive) world_falsy_entry = (Ok 0%nat, w') /\
    cell w' 0%nat = Some (Fulfills (VNum 1)) /\
    trace w' = [ECall 0 VUndef [VUndef; VObj 2%positive]].
Proof.
  split; [reflexivity|]. split; [reflexivity|].
  destruct (chain_stops_at_falsy_entry demo2 [0%nat] VNull [VFun 5%nat] 1%positive
              world_falsy_entry [ECall 0 VUndef [VUndef; VObj 2%positive]]
              (VNum 1) _ eq_refl eq_refl eq_refl)
    as (w' & Hrun & Hc & Ht & _).
  exists w'. split; [exact Hrun|]. split; [exact Hc|]. exact Ht.
Defined.

(** [chain([() => 1, 42, () => { throw ... }])] rejects with a TypeError
    after the first function. *)
Lemma chain_rejects_at_non_function_entry_witness :
  heap world_number_entry !! 1%positive
    = Some (OArr (map VFun [0%nat] ++ VNum 42 :: [VFun 5%nat])) /\
  truthy (VNum 42) = true /\ is_function (VNum 42) = false /\
  exists w',
    chain demo2 (VObj 1%positive) world_number_entry = (Ok 0%nat, w') /\
    cell w' 0%nat = Some (Rejects (TypeError "not a function")) /\
    trace w' = [ECall 0 VUndef [VUndef; VObj 2%positive]].
Proof.
  split; [reflexivity|]. split; [reflexivity|]. split; [reflexivity|].
  destruct (chain_rejects_at_non_function_entry demo2 [0%nat] (VNum 42) [VFun 5%nat]
              1%positive world_number_entry [ECall 0 VUndef [VUndef; VObj 2%positive]]
              (VNum 1) _ eq_refl eq_refl eq_refl eq_refl)
    as (w' & Hrun & Hc & Ht & _).
  exists w'. split; [exact Hrun|]. split; [exact Hc|]. exact Ht.
Defined.

(** [chain([() => 1, () => new Promise(() => {}), () => { throw ... }])]
    stays pending after the second function. *)
Lemma chain_stalls_at_pending_step_witness :
  heap world_pending_step !! 1%positive
    = Some (OArr (map VFun ([0] ++ 1 :: [5])%nat)) /\
  exists w',
    chain demo2 (VObj 1%positive) world_pending_step = (Ok 0%nat, w') /\
    cell w' 0%nat = None /\
    trace w' = [ECall 0 VUndef [VUndef; VObj 2%positive];
                ECall 1 VUndef [VNum 1; VObj 2%positive]].
Proof.
  split; [reflexivity|].
  destruct (chain_stalls_at_pending_step demo2 [0%nat] 1%nat [5%nat] 1%positive
              world_pending_step [ECall 0 VUndef [VUndef; VObj 2%positive]]
              (VNum 1) _ (VFuture NeverSettles) eq_refl eq_refl eq_refl eq_refl)
    as (w' & Hrun & Hc & Ht & _).
  exists w'. split; [exact Hrun|]. split; [exact Hc|]. exact Ht.
Defined.

(** [chain(5)] rejects. *)
Lemma chain_rejects_non_array_witness :
  is_array (VNum 5) (heap world0) = false /\
  exists w',
    chain demo2 (VNum 5) world0 = (Ok 0%nat, w') /\
    cell w' 0%nat = Some (Rejects (TypeError "slice is not a function")) /\
    trace w' = [].
Proof.
  split; [reflexivity|].
  assert (Hs : forall s, VNum 5 <> VStr s) by (intros s; discriminate).
  destruct (chain_rejects_non_array demo2 (VNum 5) world0 eq_refl Hs)
    as (w' & Hrun & Hc & Ht & _).
  exists w'. split; [exact Hrun|]. split; [exact Hc|]. exact Ht.
Defined.



(** [promise_finally(1, 3)]: the outcome is kept and the failed call
    logged. *)
Lemma promise_finally_cleanup_not_a_function_witness :
  is_function (VNum 3) = false /\
  exists w',
    promise_finally demo2 (VNum 1) (VNum 3) world0 = (Ok (Fulfills (VNum 1)), w') /\
    trace w' = [] /\
    exists rest, console w' = [VStr ("Error in promise finally: TypeError" ++ rest)].
Proof.
  split; [reflexivity|].
  destruct (promise_finally_cleanup_not_a_function demo2 (VNum 1) (VNum 3) world0 eq_refl)
    as (w' & Hrun & Ht & _ & _ & _ & Hlog).
  exists w'. split; [exact Hrun|]. split; [exact Ht|].
  apply Hlog. discriminate.
Defined.

(** [convertCallbackFun(() => { throw new Error("early") })()] rejects
    with that error. *)
Lemma adapted_function_throws_witness :
  later_wf world0 /\
  cb_sync (demo2 2%nat VUndef ([] ++ [VCallback false 0]) (heap world0)).1 = [] /\
  outcome (demo2 2%nat VUndef ([] ++ [VCallback false 0]) (heap world0)).1
    = Exn (Error "early") /\
  exists w',
    promiseGenerator demo2 false (VFun 2%nat) VUndef [] world0 = (Ok 0%nat, w') /\
    cell (drain w') 0%nat = Some (Rejects (Error "early")).
Proof.
  assert (Hwf : later_wf world0) by constructor.
  split; [exact Hwf|]. split; [reflexivity|]. split; [reflexivity|].
  destruct (adapted_function_throws demo2 false 2%nat VUndef [] world0 (Error "early")
              Hwf eq_refl eq_refl)
    as (w' & Hrun & _ & Hc).
  exists w'. split; [exact Hrun | exact Hc].
Defined.

(** [convertCallbackFunWithManyArgs(() => undefined)()] stays pending. *)
Lemma adapted_function_never_calls_back_witness :
  later_wf world0 /\
  cb_sync (demo2 3%nat VUndef ([] ++ [VCallback true 0]) (heap world0)).1 = [] /\
  cb_async (demo2 3%nat VUndef ([] ++ [VCallback true 0]) (heap world0)).1 = [] /\
  outcome (demo2 3%nat VUndef ([] ++ [VCallback true 0]) (heap world0)).1 = Ok VUndef /\
  exists w',
    promiseGenerator demo2 true (VFun 3%nat) VUndef [] world0 = (Ok 0%nat, w') /\
    cell (drain w') 0%nat = None /\
    trace (drain w') = [ECall 3 VUndef [VCallback true 0]].
Proof.
  assert (Hwf : later_wf world0) by constructor.
  split; [exact Hwf|]. split; [reflexivity|]. split; [reflexivity|].
  split; [reflexivity|].
  destruct (adapted_function_never_calls_back demo2 true 3%nat VUndef [] world0 VUndef
              Hwf eq_refl eq_refl eq_refl)
    as (w' & Hrun & Hc & Ht).
  exists w'. split; [exact Hrun|]. split; [exact Hc | exact Ht].
Defined.

(** [convertCallbackFun(3)] is built; calling the result rejects. *)
Lemma adapted_non_function_witness :
  is_function (VNum 3) = false /\
  convertCallbackFun (VNum 3) world0 = (Ok (PromiseGenerator false (VNum 3)), world0) /\
  exists w',
    apply_adapted demo2 (PromiseGenerator false (VNum 3)) VUndef [VNum 1] world0
      = (Ok 0%nat, w') /\
    cell w' 0%nat = Some (Rejects (TypeError "not a function")) /\
    trace w' = [].
Proof.
  split; [reflexivity|].
  destruct (adapted_non_function demo2 false (VNum 3) VUndef [VNum 1] world0 eq_refl)
    as (Hb & _ & w' & Hrun & Hc & Ht & _).
  split; [exact Hb|].
  exists w'. split; [exact Hrun|]. split; [exact Hc | exact Ht].
Defined.

(** An adapted call whose function calls back later, made beside a
    fulfilled promise. *)
Lemma adapted_calls_are_independent_witness :
  let w := set_cells [Some (Fulfills (VNum 9))] world0 in
  later_wf w /\
  exists w',
    promiseGenerator demo2 false (VFun 4%nat) VUndef [] w = (Ok 1%nat, w') /\
    length (cells w') = 2%nat /\
    cell (drain w') 0%nat = Some (Fulfills (VNum 9)) /\
    later_wf (drain w').
Proof.
  intros w.
  assert (Hwf : later_wf w) by constructor.
  split; [exact Hwf|].
  destruct (adapted_calls_are_independent demo2 false 4%nat VUndef [] w Hwf)
    as (w' & Hrun & Hl & Hq & _ & Hwf').
  exists w'. split; [exact Hrun|]. split; [exact Hl|].
  split; [|exact Hwf'].
  destruct (Hq 0%nat) as (_ & H); [simpl; lia|]. rewrite H. reflexivity.
Defined.

(** [promise(Promise.resolve(23))] converted again. *)
Lemma promise_is_idempotent_witness :
  is_function (VFuture (Fulfills (VNum 23))) = false /\
  promise (VFuture (Fulfills (VNum 23))) world0
    = (Ok (APromise (Fulfills (VNum 23))), world0).
Proof.
  split; [reflexivity|].
  destruct (promise_is_idempotent (VFuture (Fulfills (VNum 23))) world0 eq_refl)
    as (s & H1 & H2 & _).
  rewrite H1. injection H1 as <-. reflexivity.
Defined.

(** [timeout(5, delay(10, 1))] times out; the delay still fulfils with 1. *)
Lemma timeout_over_delay_witness :
  is_future (VNum 1) = false /\ 1 <= 5 <= 2147483647 /\
  1 <= 10 <= 2147483647 /\ 5 <> 10 /\
  exists d w1 c w2,
    delay (VNum 10) (VNum 1) world0 = (Ok d, w1) /\
    timeout (VNum 5) (delay_future d) w1 = (Ok c, w2) /\
    cell (race_run (race_order 5 10 true) d c w2).2 (t_promise c)
      = Some (Rejects (Error "Promise timed out")) /\
    cell (race_run (race_order 5 10 true) d c w2).2 (dl_promise d)
      = Some (Fulfills (VNum 1)).
Proof.
  split; [reflexivity|]. split; [lia|]. split; [lia|]. split; [lia|].
  destruct (timeout_over_delay 5 10 (VNum 1) world0 true eq_refl
              ltac:(lia) ltac:(lia) ltac:(lia))
    as (d & w1 & c & w2 & Hd & Hc & _ & _ & Ht & Hdl).
  exists d, w1, c, w2.
  split; [exact Hd|]. split; [exact Hc|]. split; [exact Ht | exact Hdl].
Defined.

(** [timeout(100, 1)]: rejected at once, and still so after the timer. *)
Lemma timeout_on_non_thenable_witness :
  is_future (VNum 1) = false /\
  exists c w0,
    timeout (VNum 100) (VNum 1) world0 = (Ok c, w0) /\
    cell (timeout_run [TimerFires] c w0).2 0%nat
      = Some (Rejects (TypeError "promise.then is not a function")).
Proof.
  split; [reflexivity|].
  destruct (timeout_on_non_thenable (VNum 100) (VNum 1) world0 [TimerFires] eq_refl)
    as (c & w0 & Hrun & _ & _ & _ & _ & Hc & _).
  exists c, w0. split; [exact Hrun | exact Hc].
Defined.

(** [waitFor(100, tester)] with a tester that returns [false] twice, then
    42, under ticks and the deadline: three calls, then stopped. *)
Lemma waitFor_polls_until_decided_witness :
  exists c0 w1,
    waitFor (VNum 100) (VFun 12%nat) world_counter = (Ok c0, w1) /\
    tester c0 = VFun 12%nat /\
    let evs := [Tick; Tick; Tick; Deadline; Tick] in
    exists m, (m <= 4)%nat /\
      trace (waitFor_run demo evs c0 w1).2 = repeat (ECall 12 VUndef []) m /\
      console (waitFor_run demo evs c0 w1).2 = [].
Proof.
  eexists _, _. split; [reflexivity|]. split; [reflexivity|].
  intros evs.
  destruct (waitFor_polls_until_decided demo (VNum 100) (VFun 12%nat) 12%nat
              world_counter _ _ evs eq_refl eq_refl)
    as (m & Hm & Ht & Hc & _).
  exists m. split; [exact Hm|]. split; [exact Ht | exact Hc].
Defined.

(** The same tester without deadline: after two ticks the call has not
    stopped, the third tick fulfils with 42, and later events change
    nothing. *)
Lemma waitFor_first_truthy_result_decides_witness :
  exists c0 w1 c w,
    waitFor (VFun 12%nat) VUndef world_counter = (Ok c0, w1) /\
    tester c0 = VFun 12%nat /\
    waitFor_run demo (repeat Tick 2) c0 w1 = (c, w) /\ stopped c = false /\
    cell (waitFor_run demo (Tick :: [Tick; Deadline; Tick]) c w).2 (w_promise c0)
      = Some (Fulfills (VNum 42)).
Proof.
  eexists _, _, _, _. split; [reflexivity|]. split; [reflexivity|].
  split; [vm_compute; reflexivity|]. split; [reflexivity|].
  destruct (waitFor_first_truthy_result_decides demo (VFun 12%nat) VUndef 12%nat
              world_counter _ _ 2%nat _ _ [Tick; Deadline; Tick]
              eq_refl eq_refl eq_refl eq_refl)
    as (H & _).
  destruct (H (VNum 42) eq_refl eq_refl) as (Hc & _). exact Hc.
Defined.

(** [waitFor(50, undefined)]: rejected at the first tick. *)
Lemma waitFor_tester_not_a_function_witness :
  is_function (VNum 50) = false /\ is_function VUndef = false /\
  exists c0 w1,
    waitFor (VNum 50) VUndef world0 = (Ok c0, w1) /\
    cell (waitFor_run demo (repeat Deadline 1 ++ Tick :: [Tick]) c0 w1).2 (w_promise c0)
      = Some (Rejects (TypeError "not a function")).
Proof.
  split; [reflexivity|]. split; [reflexivity|].
  destruct (waitFor_tester_not_a_function demo (VNum 50) VUndef world0 1%nat [Tick]
              eq_refl eq_refl)
    as (c0 & w1 & Hrun & Hc & _).
  exists c0, w1. split; [exact Hrun | exact Hc].
Defined.

(** [waitFor(tester, 5)]: the 5 is ignored, no deadline is set. *)
Lemma waitFor_function_first_witness :
  is_function (VFun 13%nat) = true /\
  exists c0 w1,
    waitFor (VFun 13%nat) (VNum 5) world0 = (Ok c0, w1) /\
    w_deadline c0 = None /\
    waitFor_run demo [Deadline; Tick; Deadline] c0 w1 = waitFor_run demo [Tick] c0 w1.
Proof.
  split; [reflexivity|].
  destruct (waitFor_function_first demo (VFun 13%nat) (VNum 5) world0
              [Deadline; Tick; Deadline] eq_refl)
    as (c0 & w1 & Hrun & _ & _ & Hd & He).
  exists c0, w1. split; [exact Hrun|]. split; [exact Hd | exact He].
Defined.
